(** * lego: certificate renewal command and the ArvanCloud DNS-01 provider

    A shallow embedding of [cmd/cmd_renew.go] and
    [providers/dns/arvancloud/arvancloud.go], with the properties of the
    renewal decision, the domain reconciler, the renewal workflow and the
    provider contract stated and proved over it.

    Conventions.
    - Go's [int], [int64] and [time.Duration] are [Z]; the only arithmetic the
      code does on them (comparisons, one saturating subtraction) is written
      out.
    - Go's [float64] is [spec_float] at precision 53 and maximal exponent
      1024, with the IEEE-754 operations of [SpecFloat] (round to nearest,
      ties to even).
    - [log.Fatal]/[log.Fatalf] end the process: an outcome [Exit]; an index
      out of range is an outcome [Panic].
    - Calls to code outside the two files (certificate storage, ACME client,
      hook launcher, backend HTTP client) are fields of an environment
      record; each call that has an effect is recorded in a trace. *)

From Stdlib Require Import ZArith Lia Bool Ascii String.
From Stdlib Require Import Floats.SpecFloat.
From stdpp Require Import base list strings gmap pretty.

Local Open Scope Z_scope.

(** ** Go values shared by both packages *)

Module Go.

(** [error] values as the code builds them: [errors.New], and [fmt.Errorf]
    kept as its format with its arguments ([%w] wraps an [ArgErr]). *)
Inductive error : Type :=
| errors_New (text : string)
| fmt_Errorf (format : string) (args : list fmtArg)
| external_error (text : string)
with fmtArg : Type :=
| ArgStr (s : string)
| ArgInt (z : Z)
| ArgErr (e : error).

(** A formatted log line, format and arguments. *)
Record LogLine := mkLine { format : string; args : list fmtArg }.

(** [errors.Unwrap]-style chain: does [e] wrap (or is it) [target]? *)
Fixpoint wraps (target e : error) {struct e} : Prop :=
  e = target \/
  match e with
  | fmt_Errorf _ l =>
      (fix any (l : list fmtArg) : Prop :=
         match l with
         | [] => False
         | ArgErr e' :: l' => wraps target e' \/ any l'
         | _ :: l' => any l'
         end) l
  | _ => False
  end.

(** A Go [(value, error)] result. *)
Inductive result (A : Type) : Type :=
| Ok (a : A)
| Err (e : error).
Arguments Ok {A} a.
Arguments Err {A} e.

End Go.
Export Go.

(** ** float64, as far as [time.Duration.Hours] and the conversion to [int]
    need it *)

Module float64.

Definition prec : Z := 53.
Definition emax : Z := 1024.

Definition t := spec_float.

(** [float64(n)] for an integer [n]: rounded to nearest even. *)
Definition of_int (n : Z) : t := binary_normalize prec emax n 0 false.

Definition add (x y : t) : t := SFadd prec emax x y.
Definition div (x y : t) : t := SFdiv prec emax x y.

(** [int(x)]: Go discards the fraction (truncation towards zero).  For a
    finite [x = (-1)^s * m * 2^e] that is the mantissa shifted by the
    exponent.  The result for NaN and the infinities is implementation
    dependent; amd64's value is used. *)
Definition to_int (x : t) : Z :=
  match x with
  | S754_zero _ => 0
  | S754_finite s m e =>
      let a := Z.shiftl (Z.pos m) e in
      if s then - a else a
  | S754_infinity _ | S754_nan => - 2 ^ 63
  end.

(** The exact value of a finite float as a fraction [num / den], [den > 0]. *)
Definition num (x : t) : Z :=
  match x with
  | S754_finite s m e =>
      let a := if 0 <=? e then Z.pos m * 2 ^ e else Z.pos m in
      if s then - a else a
  | _ => 0
  end.

Definition den (x : t) : Z :=
  match x with
  | S754_finite _ _ e => if 0 <=? e then 1 else 2 ^ (- e)
  | _ => 1
  end.

Definition is_finite (x : t) : bool :=
  match x with
  | S754_zero _ | S754_finite _ _ _ => true
  | _ => false
  end.

(** A float that is zero or finite, with exponent at most [X] and magnitude
    at most [K]: [Zdigits2 m] is the number of binary digits of [m], so
    [m * 2^e] is below [2^(Zdigits2 m + e)] in absolute value. *)
Definition small (X K : Z) (x : t) : Prop :=
  match x with
  | S754_zero _ => True
  | S754_finite _ m e => e <= X /\ Zdigits2 (Z.pos m) + e <= K
  | _ => False
  end.

(** A float that is not of the sign opposite to [neg]: a finite float of
    sign [neg], or a zero (of either sign). *)
Definition has_sign (neg : bool) (x : t) : Prop :=
  match x with
  | S754_finite s _ _ => s = neg
  | _ => True
  end.

(** Mathematical roundings of the exact value. *)
Definition floor (x : t) : Z := num x / den x.
Definition ceil (x : t) : Z := - ((- num x) / den x).
Definition trunc (x : t) : Z := Z.quot (num x) (den x).

End float64.

(** ** Package [time] *)

Module time.

(** A [Duration] is an [int64] count of nanoseconds. *)
Definition Duration := Z.

Definition minDuration : Duration := - 2 ^ 63.
Definition maxDuration : Duration := 2 ^ 63 - 1.

Definition Nanosecond : Duration := 1.
Definition Second : Duration := 1000000000.
Definition Hour : Duration := 3600 * Second.

(** An instant, in nanoseconds from a fixed epoch.  A [time.Time] covers
    more than an [int64] of nanoseconds, so no bound is put on it. *)
Definition Time := Z.

(** [t.Sub(u)]: the difference, saturated to the range of [Duration]. *)
Definition Sub (t u : Time) : Duration :=
  let d := t - u in
  if d <? minDuration then minDuration
  else if maxDuration <? d then maxDuration
  else d.

(** [d.Hours()]:
    [hour := d / Hour; nsec := d % Hour;
     return float64(hour) + float64(nsec)/(60*60*1e9)]
    with Go's integer division truncated towards zero. *)
Definition Hours (d : Duration) : float64.t :=
  let hour := Z.quot d Hour in
  let nsec := Z.rem d Hour in
  float64.add (float64.of_int hour)
              (float64.div (float64.of_int nsec) (float64.of_int 3600000000000)).

End time.

(** ** Package [cmd]: [cmd_renew.go] *)

Module cmd.

(** *** Outcomes, traces and the monad of the command *)

(** How a call ends: it returns, or [log.Fatal]/[log.Fatalf] prints a line and
    exits the process, or the run-time panics. *)
Inductive Outcome (A : Type) : Type :=
| Return (a : A)
| Exit (line : LogLine)
| Panic (reason : string).
Arguments Return {A} a.
Arguments Exit {A} line.
Arguments Panic {A} reason.

(** [x509.Certificate], the fields the command reads. *)
Record Certificate := mkCertificate {
  IsCA : bool;
  NotAfter : time.Time;
  Subject_CommonName : string;
  DNSNames : list string
}.

(** [x509.CertificateRequest], the field the command reads. *)
Record CertificateRequest := mkCertificateRequest {
  csr_Subject_CommonName : string;
  csr_DNSNames : list string
}.

(** The flags of [cli.Context] the command reads. *)
Record Context := mkContext {
  flag_domains : list string;   (* GlobalStringSlice("domains") *)
  flag_csr : string;            (* GlobalString("csr") *)
  flag_csr_set : bool;          (* GlobalIsSet("csr") *)
  flag_days : Z;                (* Int("days"), default 30 *)
  flag_reuse_key : bool;        (* Bool("reuse-key") *)
  flag_no_bundle : bool;        (* Bool("no-bundle") *)
  flag_must_staple : bool;      (* Bool("must-staple") *)
  flag_renew_hook : string      (* String("renew-hook") *)
}.

Record Account := mkAccount {
  Email : string;
  Registration : option string
}.

Definition renewEnvAccountEmail : string := "LEGO_ACCOUNT_EMAIL".
Definition renewEnvCertDomain : string := "LEGO_CERT_DOMAIN".
Definition renewEnvCertPath : string := "LEGO_CERT_PATH".
Definition renewEnvCertKeyPath : string := "LEGO_CERT_KEY_PATH".

Section Workflow.

(** Opaque values of the ACME library: a parsed private key and an issued
    [certificate.Resource]. *)
Context {PrivateKey Resource : Type}.

(** [certificate.ObtainRequest] *)
Record ObtainRequest := mkObtainRequest {
  Domains : list string;
  Bundle : bool;
  PrivateKey_ : option PrivateKey;
  MustStaple : bool
}.

(** Calls that leave the process, in the order they are made. *)
Inductive Event : Type :=
| EvLog (line : LogLine)
| EvObtain (request : ObtainRequest) (r : result Resource)
| EvObtainForCSR (csr : CertificateRequest) (bundle : bool) (r : result Resource)
| EvSaveResource (certRes : Resource)
| EvLaunchHook (hook : string) (meta : gmap string string).

(** The collaborators of the command that live in other files of the
    repository or in libraries, as parameters.  A function that returns
    [(value, error)] in Go is a [result].  [setup] (with the
    [NewAccountsStorage] it is given), [setupChallenges] and [SaveResource]
    return no error: they can report a failure only by ending the process
    (section 4.4 of the specification: any step's failure is fatal and
    terminal), hence an [Outcome].  [GetFileName] and [ExtractDomains]
    compute a value from their arguments.  The clock is the sequence of the
    readings of [time.Now()]. *)
Record Env := mkEnv {
  clock : nat -> time.Time;     (* the n-th reading of time.Now() *)
  setup : Context -> Outcome Account;
  setupChallenges : Context -> Outcome unit;
  ReadCertificate : string -> string -> result (list Certificate);
  ReadFile : string -> string -> result (list Byte.byte);
  GetFileName : string -> string -> string;
  SaveResource : Resource -> Outcome unit;
  ExtractDomains : Certificate -> list string;
  ParsePEMPrivateKey : list Byte.byte -> result PrivateKey;
  Obtain : ObtainRequest -> result Resource;
  ObtainForCSR : CertificateRequest -> bool -> result Resource;
  readCSRFile : string -> result CertificateRequest;
  launchHook : string -> gmap string string -> option error
}.

(** What a computation leaves behind: its outcome, the events it emitted and
    the number of clock readings made so far. *)
Record Run (A : Type) := mkRun {
  outcome : Outcome A;
  trace : list Event;
  reads : nat
}.
Arguments mkRun {A} outcome trace reads.
Arguments outcome {A} r.
Arguments trace {A} r.
Arguments reads {A} r.

Definition M (A : Type) : Type := nat -> Run A.

Definition ret {A} (a : A) : M A := fun n => mkRun (Return a) [] n.

Definition bind {A B} (m : M A) (k : A -> M B) : M B := fun n =>
  let r := m n in
  match outcome r with
  | Return a =>
      let r' := k a (reads r) in
      mkRun (outcome r') (trace r ++ trace r') (reads r')
  | Exit line => mkRun (Exit line) (trace r) (reads r)
  | Panic reason => mkRun (Panic reason) (trace r) (reads r)
  end.

#[global] Instance M_ret : MRet M := @ret.
#[global] Instance M_bind : MBind M := fun A B k m => bind m k.

Definition emit (e : Event) : M unit := fun n => mkRun (Return tt) [e] n.
Definition lift {A} (o : Outcome A) : M A := fun n => mkRun o [] n.

Definition log_Fatalf {A} (fmt : string) (a : list fmtArg) : M A :=
  lift (Exit (mkLine fmt a)).
Definition log_Fatal {A} (err : error) : M A :=
  lift (Exit (mkLine "%v" [ArgErr err])).
Definition log_Printf (fmt : string) (a : list fmtArg) : M unit :=
  emit (EvLog (mkLine fmt a)).
Definition log_Infof (fmt : string) (a : list fmtArg) : M unit :=
  emit (EvLog (mkLine fmt a)).

(** [s[0]] *)
Definition index0 {A} (s : list A) : M A :=
  match s with
  | x :: _ => mret x
  | [] => lift (Panic "index out of range [0] with length 0")
  end.

Variable E : Env.

Definition time_Now : M time.Time := fun n => mkRun (Return (clock E n)) [] (S n).

(** [time.Until(t)] is [t.Sub(time.Now())] for a [t] without a monotonic
    clock reading, as a parsed [NotAfter] is. *)
Definition time_Until (t : time.Time) : M time.Duration :=
  now ← time_Now; mret (time.Sub t now).

(** *** [needRenewal] *)

(** [int(d.Hours() / 24.0)] *)
Definition daysOf (d : time.Duration) : Z :=
  float64.to_int (float64.div (time.Hours d) (float64.of_int 24)).

Definition needRenewal (x509Cert : Certificate) (domain : string) (days : Z) : M bool :=
  (if IsCA x509Cert
   then log_Fatalf "[%s] Certificate bundle starts with a CA certificate" [ArgStr domain]
   else mret tt);;
  if days >=? 0 then
    d ← time_Until (NotAfter x509Cert);
    let notAfter := daysOf d in
    if notAfter >? days then
      log_Printf "[%s] The certificate expires in %d days, the number of days defined to perform the renewal is %d: no renewal."
                 [ArgStr domain; ArgInt notAfter; ArgInt days];;
      mret false
    else mret true
  else mret true.

(** The days left that [needRenewal] computes from the clock reading [n]. *)
Definition daysLeft (cert : Certificate) (n : nat) : Z :=
  daysOf (time.Sub (NotAfter cert) (clock E n)).

(** *** [merge] *)

(** The inner loop: is [next] among [prevDomains]? *)
Fixpoint found (prevDomains : list string) (next : string) : bool :=
  match prevDomains with
  | [] => false
  | prev :: rest => if String.eqb prev next then true else found rest next
  end.

(** The outer loop, over [nextDomains], with [prevDomains] growing.  The
    value of the slice that [append] returns is the list with [next] at its
    end; the two slices the command passes ([ExtractDomains]' result and the
    flag's value) share no storage, so the list is all there is to model. *)
Fixpoint merge (prevDomains nextDomains : list string) : list string :=
  match nextDomains with
  | [] => prevDomains
  | next :: rest =>
      if found prevDomains next
      then merge prevDomains rest
      else merge (prevDomains ++ [next]) rest
  end.

(** *** The calls to the collaborators, recorded in the trace *)

Definition call_Obtain (request : ObtainRequest) : M (result Resource) :=
  let r := Obtain E request in
  emit (EvObtain request r);; mret r.

Definition call_ObtainForCSR (csr : CertificateRequest) (bundle : bool) : M (result Resource) :=
  let r := ObtainForCSR E csr bundle in
  emit (EvObtainForCSR csr bundle r);; mret r.

Definition call_SaveResource (certRes : Resource) : M unit :=
  emit (EvSaveResource certRes);; lift (SaveResource E certRes).

Definition call_launchHook (hook : string) (meta : gmap string string) : M (option error) :=
  emit (EvLaunchHook hook meta);; mret (launchHook E hook meta).

(** *** [renewForDomains] *)

Definition renewForDomains (ctx : Context) (bundle : bool) (meta : gmap string string)
  : M (option error) :=
  let domains := flag_domains ctx in
  domain ← index0 domains;
  certificates ←
    match ReadCertificate E domain ".crt" with
    | Err err =>
        log_Fatalf "Error while loading the certificate for domain %s\n\t%v"
                   [ArgStr domain; ArgErr err]
    | Ok certificates => mret certificates
    end;
  cert ← index0 certificates;
  need ← needRenewal cert domain (flag_days ctx);
  if negb need then mret None else
  now ← time_Now;
  let timeLeft := time.Sub (NotAfter cert) now in
  log_Infof "[%s] acme: Trying renewal with %d hours remaining"
            [ArgStr domain; ArgInt (float64.to_int (time.Hours timeLeft))];;
  let certDomains := ExtractDomains E cert in
  key ←
    (if flag_reuse_key ctx then
       keyBytes ←
         match ReadFile E domain ".key" with
         | Err errR =>
             log_Fatalf "Error while loading the private key for domain %s\n\t%v"
                        [ArgStr domain; ArgErr errR]
         | Ok keyBytes => mret keyBytes
         end;
       match ParsePEMPrivateKey E keyBytes with
       | Err errR => mret (Err errR)
       | Ok privateKey => mret (Ok (Some privateKey))
       end
     else mret (Ok None));
  match key with
  | Err errR => mret (Some errR)          (* return errR *)
  | Ok privateKey =>
      let request := {|
        Domains := merge certDomains domains;
        Bundle := bundle;
        PrivateKey_ := privateKey;
        MustStaple := flag_must_staple ctx
      |} in
      r ← call_Obtain request;
      certRes ← match r with Err err => log_Fatal err | Ok certRes => mret certRes end;
      call_SaveResource certRes;;
      let meta := <[renewEnvCertDomain := domain]> meta in
      let meta := <[renewEnvCertPath := GetFileName E domain ".crt"]> meta in
      let meta := <[renewEnvCertKeyPath := GetFileName E domain ".key"]> meta in
      call_launchHook (flag_renew_hook ctx) meta
  end.

(** *** [renewForCSR] *)

Definition renewForCSR (ctx : Context) (bundle : bool) (meta : gmap string string)
  : M (option error) :=
  csr ←
    match readCSRFile E (flag_csr ctx) with
    | Err err => log_Fatal err
    | Ok csr => mret csr
    end;
  let domain := csr_Subject_CommonName csr in
  certificates ←
    match ReadCertificate E domain ".crt" with
    | Err err =>
        log_Fatalf "Error while loading the certificate for domain %s\n\t%v"
                   [ArgStr domain; ArgErr err]
    | Ok certificates => mret certificates
    end;
  cert ← index0 certificates;
  need ← needRenewal cert domain (flag_days ctx);
  if negb need then mret None else
  now ← time_Now;
  let timeLeft := time.Sub (NotAfter cert) now in
  log_Infof "[%s] acme: Trying renewal with %d hours remaining"
            [ArgStr domain; ArgInt (float64.to_int (time.Hours timeLeft))];;
  r ← call_ObtainForCSR csr bundle;
  certRes ← match r with Err err => log_Fatal err | Ok certRes => mret certRes end;
  call_SaveResource certRes;;
  let meta := <[renewEnvCertDomain := domain]> meta in
  let meta := <[renewEnvCertPath := GetFileName E domain ".crt"]> meta in
  let meta := <[renewEnvCertKeyPath := GetFileName E domain ".key"]> meta in
  call_launchHook (flag_renew_hook ctx) meta.

(** *** [renew], the action of the command, and the [Before] check *)

Definition renew (ctx : Context) : M (option error) :=
  account ← lift (setup E ctx);
  lift (setupChallenges E ctx);;
  (match Registration account with
   | None =>
       log_Fatalf "Account %s is not registered. Use 'run' to register a new account.\n"
                  [ArgStr (Email account)]
   | Some _ => mret tt
   end);;
  let bundle := negb (flag_no_bundle ctx) in
  let meta : gmap string string := {[ renewEnvAccountEmail := Email account ]} in
  if flag_csr_set ctx
  then renewForCSR ctx bundle meta
  else renewForDomains ctx bundle meta.

Definition before (ctx : Context) : M (option error) :=
  let hasDomains := (0 <? Z.of_nat (length (flag_domains ctx))) in
  let hasCsr := (0 <? Z.of_nat (String.length (flag_csr ctx))) in
  (if hasDomains && hasCsr
   then log_Fatalf "Please specify either --domains/-d or --csr/-c, but not both" []
   else mret tt);;
  (if negb hasDomains && negb hasCsr
   then log_Fatalf "Please specify --domains/-d (or --csr/-c if you already have a CSR)" []
   else mret tt);;
  mret None.

(** The command as the CLI runs it: [Before], then the action. *)
Definition run_renew (ctx : Context) : M (option error) :=
  before ctx;; renew ctx.

(** The Hook Metadata of a renewal of [domain] by the account [email]. *)
Definition hookMetadata (email domain : string) : gmap string string :=
  <[renewEnvCertKeyPath := GetFileName E domain ".key"]>
    (<[renewEnvCertPath := GetFileName E domain ".crt"]>
       (<[renewEnvCertDomain := domain]> {[ renewEnvAccountEmail := email ]})).

(** The line [needRenewal] logs when it decides not to renew. *)
Definition noRenewalFormat : string :=
  "[%s] The certificate expires in %d days, the number of days defined to perform the renewal is %d: no renewal.".

(** Did the run skip the renewal, that is, log that line? *)
Definition skipped (tr : list Event) : bool :=
  existsb (fun e => match e with
                    | EvLog line => String.eqb (format line) noRenewalFormat
                    | _ => false
                    end) tr.

(** The hook launches of a trace, in order. *)
Definition hooks (tr : list Event) : list (string * gmap string string) :=
  omap (fun e => match e with EvLaunchHook h m => Some (h, m) | _ => None end) tr.

(** Did the ACME client issue a certificate, and which? *)
Definition issued (tr : list Event) : list Resource :=
  omap (fun e => match e with
                 | EvObtain _ (Ok res) | EvObtainForCSR _ _ (Ok res) => Some res
                 | _ => None
                 end) tr.

(** *** Properties of runs *)

(** The postcondition calculus of the command's monad: [wp m n Q] says that
    [m], started after [n] clock readings, ends in an outcome, a trace and a
    number of readings that satisfy [Q]. *)
Definition wp {A} (m : M A) (n : nat) (Q : Outcome A -> list Event -> nat -> Prop) : Prop :=
  Q (outcome (m n)) (trace (m n)) (reads (m n)).

(** What a run of the workflow for the account [email] leaves: either no
    hook was launched, the run not having both obtained a certificate and
    stored it; or a certificate was obtained and stored, the run was no skip,
    and the hook was launched once, last, on the metadata of the domain. *)
Definition contract (hook email : string)
    (o : Outcome (option error)) (tr : list Event) : Prop :=
  (hooks tr = [] /\
   (issued tr = [] \/ exists res, issued tr = [res] /\ SaveResource E res <> Return tt) /\
   (skipped tr = true -> issued tr = [] /\ o = Return None) /\
   (forall e, o = Return e -> issued tr = [] /\ (e = None \/ skipped tr = false)))
  \/
  (exists domain res,
     hooks tr = [(hook, hookMetadata email domain)] /\
     issued tr = [res] /\ SaveResource E res = Return tt /\
     skipped tr = false /\
     last tr = Some (EvLaunchHook hook (hookMetadata email domain)) /\
     o = Return (launchHook E hook (hookMetadata email domain))).

(** The contract of [renew]: that of the workflow for the account that
    [setup] returns; nothing at all happens when [setup] does not return. *)
Definition renew_contract (ctx : Context)
    (o : Outcome (option error)) (tr : list Event) : Prop :=
  match setup E ctx with
  | Return account => contract (flag_renew_hook ctx) (Email account) o tr
  | _ => tr = [] /\ forall e, o <> Return e
  end.

End Workflow.

Arguments Env : clear implicits.
Arguments M : clear implicits.
Arguments Run : clear implicits.
Arguments Event : clear implicits.
Arguments ObtainRequest : clear implicits.
Arguments mkRun {PrivateKey Resource A} outcome trace reads.
Arguments outcome {PrivateKey Resource A} r.
Arguments trace {PrivateKey Resource A} r.
Arguments reads {PrivateKey Resource A} r.
Arguments wp {PrivateKey Resource A} m n Q.

End cmd.

(** ** Package [arvancloud]: [providers/dns/arvancloud/arvancloud.go] *)

Module arvancloud.

Definition minTTL : Z := 600.

(** [http.Client], the field the configuration sets. *)
Record http_Client := mkHTTPClient { http_Timeout : time.Duration }.

(** [Config] *)
Record Config := mkConfig {
  APIKey : string;
  PropagationTimeout : time.Duration;
  PollingInterval : time.Duration;
  TTL : Z;
  HTTPClient : option http_Client      (* a pointer, nil is None *)
}.

(** The record types of package [internal], with the fields this file sets
    or reads. *)
Record TxtValue := mkTxtValue { Text : string }.

Record IPFilterMode := mkIPFilterMode {
  Count : string;
  GeoFilter : string;
  Order : string
}.

Record DNSRecord := mkDNSRecord {
  ID : string;
  Type_ : string;
  Name : string;
  Value : TxtValue;
  record_TTL : Z;
  UpstreamHTTPS : string;
  record_IPFilterMode : IPFilterMode
}.

(** [internal.Client] *)
Record Client := mkClient {
  client_apiKey : string;
  client_HTTPClient : option http_Client
}.

(** [DNSProvider] *)
Record DNSProvider := mkDNSProvider {
  config : Config;
  client : Client
}.

(** The requests a provider sends to the backend. *)
Inductive Call : Type :=
| CallCreateRecord (domain : string) (record : DNSRecord)
| CallGetTxtRecord (domain name value : string)
| CallDeleteRecord (domain id : string).

(** [strings.Index(s, substr)]: the first position of [substr] in [s], or -1. *)
Definition strings_Index (s substr : string) : Z :=
  match String.index 0 substr s with
  | Some i => Z.of_nat i
  | None => -1
  end.

Section Provider.

(** The state of the DNS backend, as far as the provider's requests can
    observe or change it. *)
Context {Backend : Type}.

(** The code of other packages the provider calls: [dns01.GetRecord],
    [dns01.UnFqdn], and the HTTP client of package [internal], whose
    requests act on the backend. *)
Record Deps := mkDeps {
  GetRecord : string -> string -> string * string;
  UnFqdn : string -> string;
  NewClient : string -> Client;
  CreateRecord : Client -> string -> DNSRecord -> Backend -> option error * Backend;
  GetTxtRecord : Client -> string -> string -> string -> Backend -> result DNSRecord * Backend;
  DeleteRecord : Client -> string -> string -> Backend -> option error * Backend
}.

(** What a provider call leaves behind: the error it returns (nil is
    [None]), the requests it sent, and the backend after them. *)
Record Run := mkRun {
  returned : option error;
  calls : list Call;
  backend : Backend
}.

Variable D : Deps.

(** [NewDNSProviderConfig] *)
Definition NewDNSProviderConfig (config : option Config) : result DNSProvider :=
  match config with
  | None => Err (errors_New "arvanCloud: the configuration of the DNS provider is nil")
  | Some config =>
      if String.eqb (APIKey config) EmptyString then
        Err (errors_New "arvanCloud: credentials missing")
      else if TTL config <? minTTL then
        Err (fmt_Errorf "arvanCloud: invalid TTL, TTL (%d) must be greater than %d"
                        [ArgInt (TTL config); ArgInt minTTL])
      else
        let client := NewClient D (APIKey config) in
        let client :=
          match HTTPClient config with
          | Some c => {| client_apiKey := client_apiKey client; client_HTTPClient := Some c |}
          | None => client
          end in
        Ok {| config := config; client := client |}
  end.

(** [Timeout] *)
Definition Timeout (d : DNSProvider) : time.Duration * time.Duration :=
  (PropagationTimeout (config d), PollingInterval (config d)).

(** [extractRecordName] *)
Definition extractRecordName (d : DNSProvider) (fqdn domain : string) : string :=
  let name := UnFqdn D fqdn in
  let idx := strings_Index name ("." +:+ domain) in
  if negb (idx =? -1) then String.substring 0 (Z.to_nat idx) name
  else name.

(** [Present] *)
Definition Present (d : DNSProvider) (domain token keyAuth : string) (b : Backend) : Run :=
  let '(fqdn, value) := GetRecord D domain keyAuth in
  let record := {|
    ID := EmptyString;
    Type_ := "txt";
    Name := extractRecordName d fqdn domain;
    Value := {| Text := value |};
    record_TTL := TTL (config d);
    UpstreamHTTPS := "default";
    record_IPFilterMode := {| Count := "single"; GeoFilter := "none"; Order := "none" |}
  |} in
  match CreateRecord D (client d) domain record b with
  | (Some err, b') =>
      mkRun (Some (fmt_Errorf "arvanCloud: failed to add TXT record: fqdn=%s, domain name=%s: %w"
                              [ArgStr fqdn; ArgStr domain; ArgErr err]))
            [CallCreateRecord domain record] b'
  | (None, b') => mkRun None [CallCreateRecord domain record] b'
  end.

(** [CleanUp] *)
Definition CleanUp (d : DNSProvider) (domain token keyAuth : string) (b : Backend) : Run :=
  let '(fqdn, value) := GetRecord D domain keyAuth in
  let recordName := extractRecordName d fqdn domain in
  match GetTxtRecord D (client d) domain recordName value b with
  | (Err err, b') =>
      mkRun (Some (fmt_Errorf "arvanCloud: %w" [ArgErr err]))
            [CallGetTxtRecord domain recordName value] b'
  | (Ok record, b') =>
      match DeleteRecord D (client d) domain (ID record) b' with
      | (Some err, b'') =>
          mkRun (Some (fmt_Errorf "arvanCloud: failed to delate TXT record: id=%s, name=%s: %w"
                                  [ArgStr (ID record); ArgStr (Name record); ArgErr err]))
                [CallGetTxtRecord domain recordName value; CallDeleteRecord domain (ID record)] b''
      | (None, b'') =>
          mkRun None
                [CallGetTxtRecord domain recordName value; CallDeleteRecord domain (ID record)] b''
      end
  end.

End Provider.

Arguments Deps : clear implicits.
Arguments Run : clear implicits.

(** The interface [challenge.Provider], with the [Timeout] of
    [challenge.ProviderTimeout], that [DNSProvider] implements. *)
Class Provider (P Backend : Type) := {
  provider_Present : P -> string -> string -> string -> Backend -> Run Backend;
  provider_CleanUp : P -> string -> string -> string -> Backend -> Run Backend;
  provider_Timeout : P -> time.Duration * time.Duration
}.

#[global] Instance DNSProvider_Provider {Backend} (D : Deps Backend)
  : Provider DNSProvider Backend := {|
  provider_Present := Present D;
  provider_CleanUp := CleanUp D;
  provider_Timeout := Timeout
|}.

End arvancloud.

(** ** The specification's formulas *)

Module spec.

(** Section 4.2, in the specification's words: the result starts as a copy
    of [prev]; each domain of [next], in order, is appended only if it is
    not already present anywhere in the result so far. *)
Definition Merge (prev next : list string) : list string :=
  fold_left (fun acc d => if decide (d ∈ acc) then acc else acc ++ [d]) next prev.

(** The domains [Merge] adds: those of [next] that are not in [prev], each
    once, at the place of its first occurrence in [next]. *)
Definition added (prev next : list string) : list string :=
  reverse (remove_dups (reverse (list_difference next prev))).

(** Section 4.1: [daysLeft = floor(hours_until(cert.NotAfter) / 24)], the
    quotient being the [float64] the code divides to. *)
Definition daysLeft_floor (d : time.Duration) : Z :=
  float64.floor (float64.div (time.Hours d) (float64.of_int 24)).

(** The same formula over the exact duration, without any rounding of the
    quotient: 24 hours are 86400 * 10^9 nanoseconds. *)
Definition daysLeft_floor_exact (d : time.Duration) : Z :=
  d / (24 * time.Hour).

(** Section 3: [Timeout()] must yield [pollInterval < timeout], both
    strictly positive. *)
Definition timeout_ok (p : time.Duration * time.Duration) : Prop :=
  0 < snd p /\ snd p < fst p.

End spec.

(** ** A DNS zone behind the provider *)

Module zone.
Import arvancloud.

(** Modelled from the spec: package [dns01] and the HTTP client of package
    [internal] are not among the sources.  Section 4.3 gives what is used
    here: the challenge name is [_acme-challenge.<domain>] (fully qualified,
    with the final dot) and its value is derived from the key authorization;
    [CleanUp] looks a record up by domain, name and value to obtain the
    backend's identifier, and deletes by that identifier.  A lookup that
    finds no such record has no identifier to return and reports an error. *)
Record Zone := mkZone {
  next_id : nat;
  records : list (string * DNSRecord)
}.

Definition matches (domain name value : string) (entry : string * DNSRecord) : bool :=
  String.eqb (fst entry) domain
  && String.eqb (Name (snd entry)) name
  && String.eqb (Text (Value (snd entry))) value.

Definition with_ID (id : string) (r : DNSRecord) : DNSRecord :=
  {| ID := id; Type_ := Type_ r; Name := Name r; Value := Value r;
     record_TTL := record_TTL r; UpstreamHTTPS := UpstreamHTTPS r;
     record_IPFilterMode := record_IPFilterMode r |}.

(** Modelled from the spec: [internal.Client.CreateRecord], which is not among
    the sources; the zone stores the record under a fresh identifier. *)
Definition zone_CreateRecord (c : Client) (domain : string) (record : DNSRecord) (z : Zone)
  : option error * Zone :=
  (None, {| next_id := S (next_id z);
            records := records z ++ [(domain, with_ID (pretty (next_id z)) record)] |}).

(** Modelled from the spec: [internal.Client.GetTxtRecord], which is not among
    the sources; the first record of the domain with that name and value, or
    an error when there is none. *)
Definition zone_GetTxtRecord (c : Client) (domain name value : string) (z : Zone)
  : result DNSRecord * Zone :=
  match List.find (matches domain name value) (records z) with
  | Some entry => (Ok (snd entry), z)
  | None =>
      (Err (fmt_Errorf "could not find record: Domain: %s; Record: %s, Value: %s"
                       [ArgStr domain; ArgStr name; ArgStr value]), z)
  end.

(** Modelled from the spec: [internal.Client.DeleteRecord], which is not among
    the sources; the records of the domain with that identifier are removed. *)
Definition zone_DeleteRecord (c : Client) (domain id : string) (z : Zone)
  : option error * Zone :=
  (None, {| next_id := next_id z;
            records := List.filter
                         (fun entry => negb (String.eqb (fst entry) domain
                                             && String.eqb (ID (snd entry)) id))
                         (records z) |}).

(** Modelled from the spec: [dns01.UnFqdn], which is not among the sources;
    the name without its final dot. *)
Fixpoint UnFqdn (name : string) : string :=
  match name with
  | EmptyString => EmptyString
  | String c EmptyString => if Ascii.eqb c "."%char then EmptyString else name
  | String c rest => String c (UnFqdn rest)
  end.

(** Modelled from the spec: [dns01.GetRecord], which is not among the
    sources; the name is [_acme-challenge.<domain>.], the digest that turns
    the key authorization into the value is left open. *)
Definition GetRecord (digest : string -> string) (domain keyAuth : string) : string * string :=
  ("_acme-challenge." +:+ domain +:+ ".", digest keyAuth).

Definition deps (digest : string -> string) : Deps Zone := {|
  arvancloud.GetRecord := GetRecord digest;
  arvancloud.UnFqdn := UnFqdn;
  NewClient := fun apiKey => {| client_apiKey := apiKey; client_HTTPClient := None |};
  CreateRecord := zone_CreateRecord;
  GetTxtRecord := zone_GetTxtRecord;
  DeleteRecord := zone_DeleteRecord
|}.

Definition empty : Zone := {| next_id := 0; records := [] |}.

(** A configuration with the defaults of [NewDefaultConfig] (TTL [minTTL],
    120 s propagation timeout, 2 s polling interval) and an API key. *)
Definition defaultConfig : Config := {|
  APIKey := "secret";
  PropagationTimeout := 120 * time.Second;
  PollingInterval := 2 * time.Second;
  TTL := minTTL;
  HTTPClient := Some {| http_Timeout := 30 * time.Second |}
|}.

(** The same, with no time allowed for propagation. *)
Definition impatientConfig : Config := {|
  APIKey := "secret";
  PropagationTimeout := 0;
  PollingInterval := 2 * time.Second;
  TTL := minTTL;
  HTTPClient := None
|}.

Definition provider (c : Config) : DNSProvider :=
  {| config := c; client := {| client_apiKey := APIKey c; client_HTTPClient := HTTPClient c |} |}.

End zone.

(** ** An end-to-end scenario for the command *)

Module scenario.
Import cmd.

(** The instant of the run, and a day. *)
Definition t0 : time.Time := 1700000000 * time.Second.
Definition day : time.Duration := 24 * time.Hour.

Definition leaf (isCA : bool) (notAfter : time.Time) : Certificate := {|
  IsCA := isCA;
  NotAfter := notAfter;
  Subject_CommonName := "example.com";
  DNSNames := ["example.com"]
|}.

(** Certificate storage under [/certs], an ACME client that issues, and a
    stored certificate [cert]; [save] is how writing the files ends. *)
Definition env (cert : Certificate) (save : Outcome unit) : Env unit string := {|
  clock := fun _ => t0;
  setup := fun _ => Return {| Email := "admin@example.com"; Registration := Some "registered" |};
  setupChallenges := fun _ => Return tt;
  ReadCertificate := fun _ _ => Ok [cert];
  ReadFile := fun _ _ => Ok [];
  GetFileName := fun domain ext => "/certs/" +:+ domain +:+ ext;
  SaveResource := fun _ => save;
  ExtractDomains := fun c => [Subject_CommonName c];
  ParsePEMPrivateKey := fun _ => Ok tt;
  Obtain := fun request => Ok "issued";
  ObtainForCSR := fun _ _ => Ok "issued";
  readCSRFile := fun _ => Ok {| csr_Subject_CommonName := "example.com"; csr_DNSNames := [] |};
  launchHook := fun _ _ => None
|}.

(** [renew --domains example.com --days 30 --renew-hook ./deploy.sh] *)
Definition ctx : Context := {|
  flag_domains := ["example.com"];
  flag_csr := EmptyString;
  flag_csr_set := false;
  flag_days := 30;
  flag_reuse_key := false;
  flag_no_bundle := false;
  flag_must_staple := false;
  flag_renew_hook := "./deploy.sh"
|}.

(** The stored certificate expires in 10 days. *)
Definition expiring : Certificate := leaf false (t0 + 10 * day).

(** The stored certificate expired 12 hours ago. *)
Definition expired_12h : Certificate := leaf false (t0 - 12 * time.Hour).

(** The disk is full: [SaveResource] ends the process. *)
Definition disk_full : Outcome unit :=
  Exit (mkLine "Unable to save Certificate for domain %s\n\t%v"
               [ArgStr "example.com"; ArgErr (external_error "no space left on device")]).

End scenario.

(** ** Package [arvancloud]: configuration from the environment *)

Module arvancloud_env.
Import arvancloud.

Definition envNamespace : string := "ARVANCLOUD_".
Definition EnvAPIKey : string := envNamespace +:+ "API_KEY".
Definition EnvTTL : string := envNamespace +:+ "TTL".
Definition EnvPropagationTimeout : string := envNamespace +:+ "PROPAGATION_TIMEOUT".
Definition EnvPollingInterval : string := envNamespace +:+ "POLLING_INTERVAL".
Definition EnvHTTPTimeout : string := envNamespace +:+ "HTTP_TIMEOUT".

(** The functions of package [env] ([platform/config/env]) the provider
    calls, as parameters: they read the process environment. *)
Record EnvPkg := mkEnvPkg {
  env_Get : string -> result (gmap string string);
  env_GetOrDefaultInt : string -> Z -> Z;
  env_GetOrDefaultSecond : string -> time.Duration -> time.Duration
}.

Section FromEnv.
Context {Backend : Type}.
Variable V : EnvPkg.
Variable D : Deps Backend.

(** [NewDefaultConfig]; the API key is left at its zero value. *)
Definition NewDefaultConfig : Config := {|
  APIKey := EmptyString;
  TTL := env_GetOrDefaultInt V EnvTTL minTTL;
  PropagationTimeout := env_GetOrDefaultSecond V EnvPropagationTimeout (120 * time.Second);
  PollingInterval := env_GetOrDefaultSecond V EnvPollingInterval (2 * time.Second);
  HTTPClient := Some {| http_Timeout := env_GetOrDefaultSecond V EnvHTTPTimeout (30 * time.Second) |}
|}.

(** [config.APIKey = values[EnvAPIKey]]: a missing key of a Go map reads as
    the zero value. *)
Definition with_APIKey (config : Config) (key : string) : Config := {|
  APIKey := key;
  TTL := TTL config;
  PropagationTimeout := PropagationTimeout config;
  PollingInterval := PollingInterval config;
  HTTPClient := HTTPClient config
|}.

(** [NewDNSProvider] *)
Definition NewDNSProvider : result DNSProvider :=
  match env_Get V EnvAPIKey with
  | Err err => Err (fmt_Errorf "arvanCloud: %w" [ArgErr err])
  | Ok values =>
      let config := NewDefaultConfig in
      let config := with_APIKey config (default EmptyString (values !! EnvAPIKey)) in
      NewDNSProviderConfig D (Some config)
  end.

End FromEnv.

(** An environment that holds the API key and nothing else: the optional
    variables read as their defaults. *)
Definition only_key (key : string) : EnvPkg := {|
  env_Get := fun name => Ok {[ name := key ]};
  env_GetOrDefaultInt := fun _ def => def;
  env_GetOrDefaultSecond := fun _ def => def
|}.

End arvancloud_env.

(** ** Runs of the command: what is observed of them *)

Module runs.
Import cmd.

Section Effects.
Context {PrivateKey Resource : Type}.

(** The calls of a trace that are no log lines. *)
Definition effects (tr : list (Event PrivateKey Resource)) : list (Event PrivateKey Resource) :=
  List.filter (fun e => match e with EvLog _ => false | _ => true end) tr.

(** What the ACME client answered, if the event is a call to it. *)
Definition issue_result (e : Event PrivateKey Resource) : option (result Resource) :=
  match e with
  | EvObtain _ r | EvObtainForCSR _ _ r => Some r
  | _ => None
  end.

(** The sequences of calls of the workflow: nothing; a refused issuance; an
    issuance and the storing of its certificate; these two and the hook. *)
Definition well_sequenced (hook : string) (fx : list (Event PrivateKey Resource)) : Prop :=
  match fx with
  | [] => True
  | [ev] => exists err, issue_result ev = Some (Err err)
  | [ev; EvSaveResource res] => issue_result ev = Some (Ok res)
  | [ev; EvSaveResource res; EvLaunchHook h _] => issue_result ev = Some (Ok res) /\ h = hook
  | _ => False
  end.

End Effects.

(** Environments for the examples: the account, what the storage holds for
    the certificate and the key, what the ACME client answers and how the
    storing ends are given. *)
Definition env_of (account : Account) (certs : result (list Certificate))
    (key : result unit) (answer : result string) (save : Outcome unit) : Env unit string := {|
  clock := fun _ => scenario.t0;
  setup := fun _ => Return account;
  setupChallenges := fun _ => Return tt;
  ReadCertificate := fun _ _ => certs;
  ReadFile := fun _ _ => Ok [];
  GetFileName := fun domain ext => "/certs/" +:+ domain +:+ ext;
  SaveResource := fun _ => save;
  ExtractDomains := fun c => [Subject_CommonName c];
  ParsePEMPrivateKey := fun _ => key;
  Obtain := fun _ => answer;
  ObtainForCSR := fun _ _ => answer;
  readCSRFile := fun _ => Ok {| csr_Subject_CommonName := "example.com"; csr_DNSNames := [] |};
  launchHook := fun _ _ => None
|}.

Definition registered : Account :=
  {| Email := "admin@example.com"; Registration := Some "registered" |}.

Definition unregistered : Account :=
  {| Email := "admin@example.com"; Registration := None |}.

(** A storage whose key for the domain does not parse: the parser rejects
    the stored bytes, which are none, and accepts any others. *)
Definition env_unparsable_key : Env unit string := {|
  clock := fun _ => scenario.t0;
  setup := fun _ => Return registered;
  setupChallenges := fun _ => Return tt;
  ReadCertificate := fun _ _ => Ok [scenario.expiring];
  ReadFile := fun _ _ => Ok [];
  GetFileName := fun domain ext => "/certs/" +:+ domain +:+ ext;
  SaveResource := fun _ => Return tt;
  ExtractDomains := fun c => [Subject_CommonName c];
  ParsePEMPrivateKey := fun keyBytes =>
    match keyBytes with
    | [] => Err (external_error "failed to parse private key")
    | _ => Ok tt
    end;
  Obtain := fun _ => Ok "issued";
  ObtainForCSR := fun _ _ => Ok "issued";
  readCSRFile := fun _ => Ok {| csr_Subject_CommonName := "example.com"; csr_DNSNames := [] |};
  launchHook := fun _ _ => None
|}.

(** [renew --domains example.com --days 30 --reuse-key] *)
Definition ctx_reuse_key : Context := {|
  flag_domains := ["example.com"];
  flag_csr := EmptyString;
  flag_csr_set := false;
  flag_days := 30;
  flag_reuse_key := true;
  flag_no_bundle := false;
  flag_must_staple := false;
  flag_renew_hook := EmptyString
|}.

(** [renew --csr example.csr --days 30] *)
Definition ctx_csr : Context := {|
  flag_domains := [];
  flag_csr := "example.csr";
  flag_csr_set := true;
  flag_days := 30;
  flag_reuse_key := false;
  flag_no_bundle := false;
  flag_must_staple := false;
  flag_renew_hook := EmptyString
|}.

End runs.

(** ** Integers as [float64] *)

Module float64_int.

(** The float [x] is the integer [n], exactly, in normal form: a zero for
    [n = 0]; otherwise the sign of [n] and a mantissa of 53 binary digits
    that is [|n|] shifted left by the opposite of the exponent. *)
Definition is_int (n : Z) (x : float64.t) : Prop :=
  match x with
  | S754_zero _ => n = 0
  | S754_finite s m e =>
      s = (n <? 0) /\ Zdigits2 (Z.pos m) = 53 /\ e <= 0 /\ Z.pos m = Z.abs n * 2 ^ (- e)
  | _ => False
  end.

End float64_int.

(** ** The authorization step that calls the provider *)

Module orchestrator.
Import arvancloud.

Section Authorization.
Context {Backend : Type}.
Variable D : Deps Backend.

(** Modelled from the spec: the caller of the provider, the challenge solver
    of the ACME client, is not among the sources.  Sections 4.3, 5 and 7 give
    what is used here: [Present] is called first, and its failure aborts the
    authorization and the issuance; after [Present] the validation is
    awaited, and its verdict is the result of the authorization; [CleanUp] is
    called then, and its failure is reported but does not revert the
    issuance (the policy that section 9 adopts).  [failure] is what fails the
    issuance (nil is [None]), [reported] the failures that are reported
    only. *)
Record Authorization := mkAuthorization {
  failure : option error;
  reported : list error;
  requests : list Call;
  state : Backend
}.

(** Modelled from the spec: see [Authorization].  The [validation] is the
    wait for the propagation and the check by the certificate authority: it
    gives the verdict and the backend as it is when the wait is over, where
    the record may be gone already. *)
Definition authorize (validation : Backend -> option error * Backend)
    (d : DNSProvider) (domain token keyAuth : string) (b : Backend) : Authorization :=
  let presented := Present D d domain token keyAuth b in
  match returned presented with
  | Some err => mkAuthorization (Some err) [] (calls presented) (backend presented)
  | None =>
      let '(verdict, b') := validation (backend presented) in
      let cleaned := CleanUp D d domain token keyAuth b' in
      mkAuthorization verdict
                      (match returned cleaned with Some err => [err] | None => [] end)
                      (calls presented ++ calls cleaned)
                      (backend cleaned)
  end.

End Authorization.

Arguments Authorization : clear implicits.
Arguments mkAuthorization {Backend} failure reported requests state.
Arguments failure {Backend} a.
Arguments reported {Backend} a.
Arguments requests {Backend} a.
Arguments state {Backend} a.

End orchestrator.

(** ** The provider and the configuration it shares with its caller *)

Module arvancloud_ref.
Import arvancloud.

(** [NewDNSProviderConfig] takes a [*Config] and the provider keeps that
    pointer: the caller and the provider share one [Config], and what the
    caller writes to it afterwards is what the provider reads.  The store
    holds the configurations by address; a pointer of Go that is not nil
    points to a live object, so the store is total. *)
Definition ptr := nat.
Definition Store := ptr -> Config.

(** [cfg.TTL = ttl], for the [cfg] at the address [p]. *)
Definition set_TTL (s : Store) (p : ptr) (ttl : Z) : Store :=
  fun q =>
    if Nat.eqb q p
    then {| APIKey := APIKey (s p);
            PropagationTimeout := PropagationTimeout (s p);
            PollingInterval := PollingInterval (s p);
            TTL := ttl;
            HTTPClient := HTTPClient (s p) |}
    else s q.

(** [DNSProvider], with [config *Config] as the address it is. *)
Record DNSProvider := mkDNSProvider {
  config : ptr;
  client : Client
}.

(** The provider as its fields read in the store [s]. *)
Definition load (s : Store) (d : DNSProvider) : arvancloud.DNSProvider :=
  {| arvancloud.config := s (config d); arvancloud.client := client d |}.

Section Shared.
Context {Backend : Type}.
Variable D : Deps Backend.

(** [NewDNSProviderConfig], in the store [s]; [None] is the nil pointer. *)
Definition NewDNSProviderConfig (s : Store) (config : option ptr) : result DNSProvider :=
  match config with
  | None => Err (errors_New "arvanCloud: the configuration of the DNS provider is nil")
  | Some config =>
      if String.eqb (APIKey (s config)) EmptyString then
        Err (errors_New "arvanCloud: credentials missing")
      else if TTL (s config) <? minTTL then
        Err (fmt_Errorf "arvanCloud: invalid TTL, TTL (%d) must be greater than %d"
                        [ArgInt (TTL (s config)); ArgInt minTTL])
      else
        let client := NewClient D (APIKey (s config)) in
        let client :=
          match HTTPClient (s config) with
          | Some c => {| client_apiKey := client_apiKey client; client_HTTPClient := Some c |}
          | None => client
          end in
        Ok {| config := config; client := client |}
  end.

(** [Present], in the store [s] of the time of the call: [d.config.TTL] is
    read through the pointer. *)
Definition Present (s : Store) (d : DNSProvider) (domain token keyAuth : string)
    (b : Backend) : Run Backend :=
  arvancloud.Present D (load s d) domain token keyAuth b.

End Shared.

End arvancloud_ref.

(** * Properties *)

(** ** [float64] to [int] *)

Module float64_facts.
Import float64.

Lemma den_pos x : 0 < den x.
Proof.
  destruct x as [ | | |s m e]; unfold den; try lia.
  destruct (Z.leb_spec 0 e); [lia|]. apply Z.pow_pos_nonneg; lia.
Qed.

(** The conversion to [int] is the truncation of the exact value. *)
Lemma to_int_trunc x : is_finite x = true -> to_int x = trunc x.
Proof.
  destruct x as [sg| | |s m e]; try discriminate; intros _.
  - reflexivity.
  - unfold to_int, trunc, num, den.
    destruct (Z.leb_spec 0 e) as [He|He].
    + rewrite Z.shiftl_mul_pow2 by lia. rewrite Z.quot_1_r. reflexivity.
    + assert (Hs : Z.shiftl (Z.pos m) e = Z.pos m / 2 ^ (- e)).
      { rewrite <- Z.shiftr_div_pow2 by lia.
        unfold Z.shiftr. rewrite Z.opp_involutive. reflexivity. }
      rewrite Hs.
      assert (Hp : 0 < 2 ^ (- e)) by (apply Z.pow_pos_nonneg; lia).
      destruct s.
      * rewrite Z.quot_opp_l by lia.
        rewrite Z.quot_div_nonneg by lia. reflexivity.
      * rewrite Z.quot_div_nonneg by lia. reflexivity.
Qed.

(** Truncation is the floor of a value that is not negative ... *)
Lemma trunc_floor x : 0 <= num x -> trunc x = floor x.
Proof.
  intros H. unfold trunc, floor.
  apply Z.quot_div_nonneg; [exact H | apply den_pos].
Qed.

(** ... and the ceiling of a value that is not positive. *)
Lemma trunc_ceil x : num x <= 0 -> trunc x = ceil x.
Proof.
  intros H. unfold trunc, ceil. pose proof (den_pos x) as Hd.
  replace (num x) with (- (- num x)) at 1 by lia.
  rewrite Z.quot_opp_l by lia.
  rewrite Z.quot_div_nonneg by lia. reflexivity.
Qed.

(** Where they differ: a negative value that is not an integer. *)
Lemma floor_lt_trunc x :
  num x < 0 -> (num x) mod (den x) <> 0 -> floor x = trunc x - 1.
Proof.
  intros Hn Hm. rewrite trunc_ceil by lia. unfold floor, ceil.
  pose proof (den_pos x) as Hd.
  pose proof (Z.div_mod (num x) (den x) ltac:(lia)) as H1.
  pose proof (Z.mod_pos_bound (num x) (den x) Hd) as H2.
  assert (H3 : (- num x) / den x = - (num x / den x) - 1).
  { symmetry. apply (Z.div_unique _ _ _ (den x - num x mod den x)); [lia | nia]. }
  rewrite H3. lia.
Qed.

(** *** The size of a float: exponent and magnitude

    [Zdigits2 m] is the number of binary digits of [m]; a finite float
    [m * 2^e] is below [2^(Zdigits2 m + e)] in absolute value.  The
    lemmas below follow an upper bound on the exponent and on that
    magnitude through rounding, addition and division: results that stay
    under the largest exponent of the format are finite. *)

Lemma Zdigits2_log2 m : 0 < m -> Zdigits2 m = Z.log2 m + 1.
Proof.
  destruct m as [|p|p]; try lia. intros _. simpl.
  destruct p; simpl; try reflexivity.
  - induction p; simpl; lia.
  - induction p; simpl; lia.
Qed.

Lemma Zdigits2_nonneg m : 0 <= Zdigits2 m.
Proof. destruct m; simpl; lia. Qed.

Lemma Zdigits2_mono a b : 0 <= a <= b -> Zdigits2 a <= Zdigits2 b.
Proof.
  intros [Ha Hab]. destruct (Z.eq_dec a 0) as [->|Hn].
  - apply Zdigits2_nonneg.
  - rewrite !Zdigits2_log2 by lia. pose proof (Z.log2_le_mono a b Hab). lia.
Qed.

Lemma Zdigits2_succ m : 0 <= m -> Zdigits2 (m + 1) <= Zdigits2 m + 1.
Proof.
  intros Hm. destruct (Z.eq_dec m 0) as [->|Hn]; [simpl; lia|].
  rewrite !Zdigits2_log2 by lia.
  pose proof (Z.log2_succ_le m). unfold Z.succ in *. lia.
Qed.

Lemma Zdigits2_div_pow2 m n :
  0 <= m -> 0 <= n -> 0 < m / 2 ^ n -> Zdigits2 (m / 2 ^ n) + n <= Zdigits2 m.
Proof.
  intros Hm Hn Hq.
  assert (Hp : 0 < 2 ^ n) by (apply Z.pow_pos_nonneg; lia).
  assert (Hm' : 0 < m).
  { destruct (Z.eq_dec m 0) as [->|]; [rewrite Z.div_0_l in Hq; lia | lia]. }
  assert (Hle : 2 ^ n <= m).
  { destruct (Z.lt_ge_cases m (2 ^ n)); [rewrite Z.div_small in Hq; lia | assumption]. }
  apply Z.log2_le_pow2 in Hle; [|assumption].
  rewrite !Zdigits2_log2 by lia.
  rewrite <- Z.shiftr_div_pow2 by lia.
  rewrite Z.log2_shiftr by lia. lia.
Qed.

Lemma Zdigits2_shiftl m n : 0 < m -> 0 <= n -> Zdigits2 (Z.shiftl m n) = Zdigits2 m + n.
Proof.
  intros Hm Hn.
  assert (0 < Z.shiftl m n).
  { rewrite Z.shiftl_mul_pow2 by lia. apply Z.mul_pos_pos; [lia|apply Z.pow_pos_nonneg; lia]. }
  rewrite !Zdigits2_log2 by lia. rewrite Z.log2_shiftl by lia. lia.
Qed.

Lemma Zdigits2_div a b :
  0 <= a -> 0 < b -> Zdigits2 (a / b) <= Z.max 0 (Zdigits2 a - Zdigits2 b + 1).
Proof.
  intros Ha Hb.
  destruct (Z.eq_dec (a / b) 0) as [->|Hq]; [simpl; lia|].
  assert (Hq' : 0 < a / b) by (pose proof (Z.div_pos a b Ha Hb); lia).
  assert (Ha' : 0 < a).
  { destruct (Z.eq_dec a 0) as [->|]; [rewrite Z.div_0_l in Hq; lia | lia]. }
  rewrite !Zdigits2_log2 by lia.
  pose proof (Z.log2_spec a Ha') as [_ Hau].
  pose proof (Z.log2_spec b Hb) as [Hbl _].
  pose proof (Z.log2_nonneg a). pose proof (Z.log2_nonneg b).
  (* a / b < 2 ^ (log2 a + 1 - log2 b) *)
  assert (Hlt : a / b < 2 ^ (Z.log2 a + 1 - Z.log2 b)).
  { apply Z.div_lt_upper_bound; [lia|].
    destruct (Z.le_gt_cases (Z.log2 b) (Z.log2 a + 1)) as [Hc|Hc].
    - apply Z.lt_le_trans with (1 := Hau).
      replace (Z.succ (Z.log2 a)) with ((Z.log2 a + 1 - Z.log2 b) + Z.log2 b) by lia.
      rewrite Z.pow_add_r by lia.
      rewrite Z.mul_comm. apply Z.mul_le_mono_nonneg_r; [apply Z.pow_nonneg; lia|lia].
    - exfalso. assert (a < b).
      { apply Z.lt_le_trans with (1 := Hau). apply Z.le_trans with (2 := Hbl).
        apply Z.pow_le_mono_r; lia. }
      rewrite Z.div_small in Hq'; lia. }
  assert (Hex : 0 <= Z.log2 a + 1 - Z.log2 b).
  { destruct (Z.lt_ge_cases (Z.log2 a + 1 - Z.log2 b) 0) as [Hneg|]; [|lia].
    rewrite Z.pow_neg_r in Hlt by lia. lia. }
  apply Z.log2_lt_pow2 in Hlt; lia.
Qed.

Lemma shr_1_m r : 0 <= shr_m r -> shr_m (shr_1 r) = shr_m r / 2.
Proof.
  destruct r as [m rb sb]. simpl. intros Hm.
  destruct m as [|p|p]; try lia; [reflexivity|].
  destruct p as [p|p|]; simpl.
  - rewrite (Pos2Z.inj_xI p).
    apply (Z.div_unique (2 * Z.pos p + 1) 2 (Z.pos p) 1); lia.
  - rewrite (Pos2Z.inj_xO p).
    apply (Z.div_unique (2 * Z.pos p) 2 (Z.pos p) 0); lia.
  - reflexivity.
Qed.

Lemma iter_shr_1_m p : forall r,
  0 <= shr_m r -> shr_m (SpecFloat.iter_pos shr_1 p r) = shr_m r / 2 ^ Z.pos p.
Proof.
  assert (Hnn : forall a k, 0 <= a -> 0 <= k -> 0 <= a / 2 ^ k).
  { intros a k Ha Hk. apply Z.div_pos; [lia|apply Z.pow_pos_nonneg; lia]. }
  assert (Hpp : forall k, 0 <= k -> 0 < 2 ^ k).
  { intros k Hk. apply Z.pow_pos_nonneg; lia. }
  induction p as [p IH|p IH|]; intros r Hr; cbn [SpecFloat.iter_pos].
  - assert (H1 : 0 <= shr_m (shr_1 r)) by (rewrite shr_1_m by lia; apply Z.div_pos; lia).
    assert (H2 : 0 <= shr_m (SpecFloat.iter_pos shr_1 p (shr_1 r))) by (rewrite IH by lia; apply Hnn; lia).
    rewrite IH, IH, shr_1_m by lia.
    rewrite !Z.div_div by (try apply Hpp; lia).
    f_equal. rewrite (Pos2Z.inj_xI p).
    replace (2 * Z.pos p + 1) with (1 + Z.pos p + Z.pos p) by lia.
    rewrite !Z.pow_add_r, Z.pow_1_r by lia. lia.
  - assert (H2 : 0 <= shr_m (SpecFloat.iter_pos shr_1 p r)) by (rewrite IH by lia; apply Hnn; lia).
    rewrite IH, IH by lia.
    rewrite !Z.div_div by (try apply Hpp; lia).
    f_equal. rewrite (Pos2Z.inj_xO p).
    replace (2 * Z.pos p) with (Z.pos p + Z.pos p) by lia.
    rewrite !Z.pow_add_r by lia. lia.
  - rewrite shr_1_m by lia. rewrite Z.pow_1_r. reflexivity.
Qed.

Lemma shr_fexp_spec m e l :
  0 <= m ->
  let n := Z.max 0 (fexp prec emax (Zdigits2 m + e) - e) in
  snd (shr_fexp prec emax m e l) = e + n /\
  shr_m (fst (shr_fexp prec emax m e l)) = m / 2 ^ n.
Proof.
  intros Hm n. unfold shr_fexp, shr. subst n.
  assert (Hrec : shr_m (shr_record_of_loc m l) = m).
  { destruct l as [|[ | | ]]; reflexivity. }
  destruct (fexp prec emax (Zdigits2 m + e) - e) as [|p|p] eqn:Hn; simpl.
  - rewrite Hrec, Z.div_1_r. split; lia.
  - rewrite iter_shr_1_m by (rewrite Hrec; lia). rewrite Hrec. split; reflexivity.
  - rewrite Hrec, Z.div_1_r. split; lia.
Qed.

Lemma round_nearest_even_bounds m l : m <= round_nearest_even m l <= m + 1.
Proof.
  destruct l as [|[ | | ]]; simpl; try lia. destruct (Z.even m); lia.
Qed.

Lemma small_weaken X K X' K' x : X <= X' -> K <= K' -> small X K x -> small X' K' x.
Proof. destruct x; simpl; try tauto. lia. Qed.

Lemma binary_round_aux_small sx mx ex lx X K :
  0 <= mx -> ex <= X -> Zdigits2 mx + ex <= K ->
  X <= 971 -> K <= 1023 ->
  small (Z.max X (Z.max (K - 52) (-1074))) (Z.max (K + 1) (Z.max (X + 1) (-1073)))
        (binary_round_aux prec emax sx mx ex lx).
Proof.
  intros Hmx Hex Hmag HX HK. unfold binary_round_aux.
  pose proof (shr_fexp_spec mx ex lx Hmx) as [He1 Hm1].
  destruct (shr_fexp prec emax mx ex lx) as [mrs1 e1]. simpl in He1, Hm1.
  set (n1 := Z.max 0 (fexp prec emax (Zdigits2 mx + ex) - ex)) in *.
  set (m1 := round_nearest_even (shr_m mrs1) (loc_of_shr_record mrs1)).
  assert (Hn1 : 0 <= n1) by (unfold n1; lia).
  assert (Hm1nn : 0 <= shr_m mrs1).
  { rewrite Hm1. apply Z.div_pos; [lia|apply Z.pow_pos_nonneg; lia]. }
  pose proof (round_nearest_even_bounds (shr_m mrs1) (loc_of_shr_record mrs1)) as Hr.
  fold m1 in Hr.
  assert (Hm1' : 0 <= m1) by lia.
  pose proof (shr_fexp_spec m1 e1 loc_Exact Hm1') as [He2 Hm2].
  destruct (shr_fexp prec emax m1 e1 loc_Exact) as [mrs2 e2]. simpl in He2, Hm2.
  set (n2 := Z.max 0 (fexp prec emax (Zdigits2 m1 + e1) - e1)) in *.
  assert (Hn2 : 0 <= n2) by (unfold n2; lia).
  (* the magnitude after the first shift and the rounding *)
  assert (Hd1 : Zdigits2 m1 + e1 <= Z.max (K + 1) (e1 + 1)).
  { destruct (Z.eq_dec (shr_m mrs1) 0) as [Hz|Hz].
    - assert (Zdigits2 m1 <= Zdigits2 1) by (apply Zdigits2_mono; lia).
      simpl in H. lia.
    - pose proof (Zdigits2_div_pow2 mx n1 Hmx Hn1 ltac:(rewrite <- Hm1; lia)) as Hd.
      rewrite <- Hm1 in Hd.
      assert (Zdigits2 m1 <= Zdigits2 (shr_m mrs1 + 1)) by (apply Zdigits2_mono; lia).
      pose proof (Zdigits2_succ (shr_m mrs1) Hm1nn). lia. }
  assert (He1b : e1 <= Z.max X (Z.max (K - 53) (-1074))).
  { rewrite He1. unfold n1, fexp, emin, prec, emax. lia. }
  assert (He2b : e2 <= Z.max X (Z.max (K - 52) (-1074))).
  { rewrite He2. unfold n2, fexp, emin, prec, emax. lia. }
  destruct (shr_m mrs2) as [|p|p] eqn:Hp.
  - exact I.
  - replace (e2 <=? emax - prec) with true
      by (symmetry; apply Z.leb_le; unfold emax, prec; lia).
    unfold small. split; [exact He2b|].
    pose proof (Zdigits2_div_pow2 m1 n2 Hm1' Hn2 ltac:(rewrite <- Hm2; lia)) as Hd.
    rewrite <- Hm2 in Hd. lia.
  - exfalso. assert (0 <= m1 / 2 ^ n2) by (apply Z.div_pos; [lia|apply Z.pow_pos_nonneg; lia]).
    rewrite <- Hm2 in H. lia.
Qed.

Lemma Zdigits2_abs m : Zdigits2 (Z.abs m) = Zdigits2 m.
Proof. destruct m; reflexivity. Qed.

Lemma Zdigits2_lt_pow m k : 0 <= k -> Z.abs m < 2 ^ k -> Zdigits2 m <= k.
Proof.
  intros Hk Hm. rewrite <- Zdigits2_abs.
  destruct (Z.eq_dec (Z.abs m) 0) as [->|Hn]; [simpl; lia|].
  rewrite Zdigits2_log2 by lia.
  apply Z.log2_lt_pow2 in Hm; lia.
Qed.

Lemma Zdigits2_bound m : Z.abs m < 2 ^ Zdigits2 m.
Proof.
  rewrite <- Zdigits2_abs.
  destruct (Z.eq_dec (Z.abs m) 0) as [->|Hn]; [simpl; lia|].
  rewrite Zdigits2_log2 by lia.
  pose proof (Z.log2_spec (Z.abs m) ltac:(lia)). unfold Z.succ in *. lia.
Qed.

Lemma iter_xO_shiftl m d : Z.pos (Pos.iter xO m d) = Z.shiftl (Z.pos m) (Z.pos d).
Proof.
  unfold Z.shiftl. induction d as [|d IH] using Pos.peano_ind.
  - reflexivity.
  - rewrite !Pos.iter_succ. rewrite <- IH. reflexivity.
Qed.

Lemma shl_align_spec mx ex ex' :
  snd (shl_align mx ex ex') <= ex /\
  Zdigits2 (Z.pos (fst (shl_align mx ex ex'))) + snd (shl_align mx ex ex')
    = Zdigits2 (Z.pos mx) + ex.
Proof.
  unfold shl_align. destruct (ex' - ex) as [|d|d] eqn:Hd; simpl fst; simpl snd; try lia.
  split; [lia|].
  rewrite iter_xO_shiftl, Zdigits2_shiftl by lia. lia.
Qed.

Lemma binary_round_small sx mx ex X K :
  ex <= X -> Zdigits2 (Z.pos mx) + ex <= K -> X <= 971 -> K <= 1023 ->
  small (Z.max X (Z.max (K - 52) (-1074))) (Z.max (K + 1) (Z.max (X + 1) (-1073)))
        (binary_round prec emax sx mx ex).
Proof.
  intros Hex Hmag HX HK. unfold binary_round.
  pose proof (shl_align_spec mx ex (fexp prec emax (Z.pos (digits2_pos mx) + ex))) as [H1 H2].
  destruct (shl_align mx ex _) as [mz ez]. simpl fst in *; simpl snd in *.
  apply binary_round_aux_small; lia.
Qed.

Lemma binary_normalize_small m e X K :
  e <= X -> Zdigits2 m + e <= K -> X <= 971 -> K <= 1023 ->
  small (Z.max X (Z.max (K - 52) (-1074))) (Z.max (K + 1) (Z.max (X + 1) (-1073)))
        (binary_normalize prec emax m e false).
Proof.
  intros He Hmag HX HK. destruct m as [|p|p]; simpl binary_normalize.
  - exact I.
  - apply binary_round_small; assumption.
  - apply binary_round_small; assumption.
Qed.

Lemma SFadd_small x y X K :
  small X K x -> small X K y -> X <= 971 -> K <= 1022 ->
  small (Z.max X (Z.max (K - 51) (-1074))) (Z.max (K + 2) (Z.max (X + 1) (-1073)))
        (SFadd prec emax x y).
Proof.
  intros Hx Hy HX HK.
  destruct x as [sx| | |sx mx ex]; try contradiction;
    destruct y as [sy| | |sy my ey]; try contradiction.
  - cbn [SFadd]. destruct sx, sy; exact I.
  - cbn [SFadd]. eapply small_weaken; [| |exact Hy]; lia.
  - cbn [SFadd]. eapply small_weaken; [| |exact Hx]; lia.
  - destruct Hx as [Hex Hkx], Hy as [Hey Hky].
    cbn [SFadd].
    set (ez := Z.min ex ey).
    pose proof (shl_align_spec mx ex ez) as [Hx1 Hx2].
    pose proof (shl_align_spec my ey ez) as [Hy1 Hy2].
    assert (Hxs : snd (shl_align mx ex ez) = ez).
    { unfold shl_align. destruct (ez - ex) eqn:Hd; simpl; unfold ez in *; lia. }
    assert (Hys : snd (shl_align my ey ez) = ez).
    { unfold shl_align. destruct (ez - ey) eqn:Hd; simpl; unfold ez in *; lia. }
    rewrite Hxs in Hx2. rewrite Hys in Hy2.
    set (a := Z.pos (fst (shl_align mx ex ez))) in *.
    set (b := Z.pos (fst (shl_align my ey ez))) in *.
    eapply small_weaken; [| |apply (binary_normalize_small _ ez X (K + 1))]; try lia.
    pose proof (Zdigits2_bound a) as Ha. pose proof (Zdigits2_bound b) as Hb.
    assert (Hka : 0 <= K - ez).
    { pose proof (Zdigits2_nonneg a). lia. }
    assert (Hpa : 2 ^ Zdigits2 a <= 2 ^ (K - ez)) by (apply Z.pow_le_mono_r; lia).
    assert (Hpb : 2 ^ Zdigits2 b <= 2 ^ (K - ez)) by (apply Z.pow_le_mono_r; lia).
    assert (Hs : Zdigits2 (cond_Zopp sx a + cond_Zopp sy b) <= K - ez + 1).
    { apply Zdigits2_lt_pow; [lia|].
      rewrite Z.pow_add_r, Z.pow_1_r by lia.
      unfold cond_Zopp. destruct sx, sy; lia. }
    lia.
Qed.

Lemma SFdiv_small x sy my ey X K :
  small X K x ->
  X - ey <= 971 ->
  K - (Zdigits2 (Z.pos my) + ey) + 1 <= 1023 ->
  small (Z.max (X - ey) (Z.max (K - (Zdigits2 (Z.pos my) + ey) - 51) (-1074)))
        (Z.max (X - ey + 1) (Z.max (K - (Zdigits2 (Z.pos my) + ey) + 2) (-1073)))
        (SFdiv prec emax x (S754_finite sy my ey)).
Proof.
  intros Hx HX HK.
  destruct x as [sx| | |sx mx ex]; try contradiction.
  - exact I.
  - destruct Hx as [Hex Hkx]. cbn [SFdiv]. unfold SFdiv_core_binary.
    set (d1 := Zdigits2 (Z.pos mx)) in *.
    set (d2 := Zdigits2 (Z.pos my)) in *.
    set (e' := Z.min (fexp prec emax (d1 + ex - (d2 + ey))) (ex - ey)).
    set (s := ex - ey - e').
    set (m' := match s with Z.pos _ => Z.shiftl (Z.pos mx) s | 0 => Z.pos mx | Z.neg _ => 0 end).
    assert (Hs : 0 <= s) by (unfold s, e'; lia).
    assert (Hm' : 0 < m' /\ Zdigits2 m' = d1 + s).
    { unfold m'. destruct s as [|p|p] eqn:Hsp; try lia.
      split.
      - rewrite Z.shiftl_mul_pow2 by lia.
        apply Z.mul_pos_pos; [lia|apply Z.pow_pos_nonneg; lia].
      - rewrite Zdigits2_shiftl by lia. reflexivity. }
    destruct Hm' as [Hm'pos Hm'dig].
    destruct (Z.div_eucl m' (Z.pos my)) as [q r] eqn:Hqr.
    assert (Hq : q = m' / Z.pos my) by (unfold Z.div; rewrite Hqr; reflexivity).
    assert (Hq0 : 0 <= q) by (rewrite Hq; apply Z.div_pos; lia).
    assert (Hqd : Zdigits2 q <= Z.max 0 (d1 + s - d2 + 1)).
    { rewrite Hq, <- Hm'dig. apply Zdigits2_div; lia. }
    eapply small_weaken;
      [| |apply (binary_round_aux_small _ q e' _ (X - ey)
                   (Z.max (X - ey) (K - (d2 + ey) + 1)))];
      try lia; unfold s, e' in *; lia.
Qed.

(** *** The quotient [d.Hours() / 24.0] is finite for every [Duration] *)

Lemma quot_rem_bounds d :
  time.minDuration <= d <= time.maxDuration ->
  Z.abs (Z.quot d time.Hour) < 2 ^ 22 /\ Z.abs (Z.rem d time.Hour) < 2 ^ 42.
Proof.
  unfold time.minDuration, time.maxDuration. intros Hd.
  change time.Hour with 3600000000000.
  pose proof (Z.quot_rem' d 3600000000000) as Hqr.
  assert (Hr : Z.abs (Z.rem d 3600000000000) < 3600000000000).
  { pose proof (Z.rem_bound_abs d 3600000000000 ltac:(lia)). lia. }
  split; [|lia].
  change (2 ^ 22) with 4194304. change (2 ^ 63) with 9223372036854775808 in Hd.
  lia.
Qed.

Lemma Hours_small d :
  time.minDuration <= d <= time.maxDuration -> small 11 25 (time.Hours d).
Proof.
  intros Hd. destruct (quot_rem_bounds d Hd) as [Hq Hr].
  unfold time.Hours, add, div.
  assert (H1 : small 11 23 (of_int (Z.quot d time.Hour))).
  { eapply small_weaken; [| |apply (binary_normalize_small _ 0 0 22)]; try lia.
    pose proof (Zdigits2_lt_pow (Z.quot d time.Hour) 22 ltac:(lia) Hq). lia. }
  assert (H2 : small 0 43 (of_int (Z.rem d time.Hour))).
  { eapply small_weaken; [| |apply (binary_normalize_small _ 0 0 42)]; try lia.
    pose proof (Zdigits2_lt_pow (Z.rem d time.Hour) 42 ltac:(lia) Hr). lia. }
  assert (Hc : of_int 3600000000000 = S754_finite false 7372800000000000 (-11)).
  { vm_compute. reflexivity. }
  rewrite Hc.
  assert (H3 : small 11 23 (SFdiv prec emax (of_int (Z.rem d time.Hour))
                                  (S754_finite false 7372800000000000 (-11)))).
  { eapply small_weaken; [| |apply (SFdiv_small _ _ _ _ 0 43 H2)];
      change (Zdigits2 (Z.pos 7372800000000000)) with 53; lia. }
  eapply small_weaken; [| |apply (SFadd_small _ _ 11 23 H1 H3)]; lia.
Qed.

Lemma days_quotient_small d :
  time.minDuration <= d <= time.maxDuration ->
  small 59 60 (div (time.Hours d) (of_int 24)).
Proof.
  intros Hd. pose proof (Hours_small d Hd) as Hh. unfold div.
  assert (Hc : of_int 24 = S754_finite false 6755399441055744 (-48)).
  { vm_compute. reflexivity. }
  rewrite Hc.
  eapply small_weaken; [| |apply (SFdiv_small _ _ _ _ 11 25 Hh)];
    change (Zdigits2 (Z.pos 6755399441055744)) with 53; lia.
Qed.

(** *** The sign of the quotient is that of the duration *)

Lemma binary_round_aux_sign sx mx ex lx :
  has_sign sx (binary_round_aux prec emax sx mx ex lx).
Proof.
  unfold binary_round_aux.
  destruct (shr_fexp prec emax mx ex lx) as [mrs1 e1].
  destruct (shr_fexp prec emax _ e1 loc_Exact) as [mrs2 e2].
  destruct (shr_m mrs2); [exact I | | exact I].
  destruct (e2 <=? emax - prec); [reflexivity | exact I].
Qed.

Lemma binary_round_sign sx mx ex : has_sign sx (binary_round prec emax sx mx ex).
Proof.
  unfold binary_round. destruct (shl_align mx ex _) as [mz ez].
  apply binary_round_aux_sign.
Qed.

Lemma binary_normalize_sign m e : has_sign (m <? 0) (binary_normalize prec emax m e false).
Proof.
  destruct m as [|p|p]; [exact I | |]; apply binary_round_sign.
Qed.

Lemma has_sign_zero_int neg n : n = 0 -> has_sign neg (of_int n).
Proof. intros ->. exact I. Qed.

Lemma SFdiv_sign neg x my ey :
  has_sign neg x -> has_sign neg (SFdiv prec emax x (S754_finite false my ey)).
Proof.
  destruct x as [sx|sx| |sx mx ex]; intros Hx; try exact I.
  cbn [SFdiv]. simpl in Hx. subst sx. rewrite xorb_false_r.
  destruct (SFdiv_core_binary prec emax (Z.pos mx) ex (Z.pos my) ey) as [[mz ez] lz].
  apply binary_round_aux_sign.
Qed.

Lemma SFadd_sign neg x y :
  has_sign neg x -> has_sign neg y -> has_sign neg (SFadd prec emax x y).
Proof.
  destruct x as [sx|sx| |sx mx ex]; destruct y as [sy|sy| |sy my ey];
    intros Hx Hy; try exact I; try exact Hx; try exact Hy.
  - cbn [SFadd]. destruct sx, sy; exact I.
  - cbn [SFadd]. destruct sx, sy; exact I.
  - simpl in Hx, Hy. subst sx sy. cbn [SFadd]. unfold cond_Zopp.
    destruct neg.
    + rewrite <- Z.opp_add_distr, <- Pos2Z.inj_add.
      apply (binary_round_sign true).
    + rewrite <- Pos2Z.inj_add. apply (binary_round_sign false).
Qed.

Lemma days_quotient_sign d : has_sign (d <? 0) (div (time.Hours d) (of_int 24)).
Proof.
  unfold div.
  assert (Hc : of_int 24 = S754_finite false 6755399441055744 (-48)).
  { vm_compute. reflexivity. }
  rewrite Hc. apply SFdiv_sign. unfold time.Hours, add, div.
  assert (Hc' : of_int 3600000000000 = S754_finite false 7372800000000000 (-11)).
  { vm_compute. reflexivity. }
  rewrite Hc'. change time.Hour with 3600000000000.
  pose proof (Z.quot_rem' d 3600000000000) as Hqr.
  pose proof (Z.rem_bound_abs d 3600000000000 ltac:(lia)) as Hrb.
  assert (Hrs : (0 <= d -> 0 <= Z.rem d 3600000000000) /\
                (d <= 0 -> Z.rem d 3600000000000 <= 0)).
  { split; intros Hd; [apply Z.rem_nonneg | apply Z.rem_nonpos]; lia. }
  apply SFadd_sign; [|apply SFdiv_sign].
  - destruct (Z.eq_dec (Z.quot d 3600000000000) 0) as [Hz|Hz].
    + apply has_sign_zero_int, Hz.
    + replace (d <? 0) with (Z.quot d 3600000000000 <? 0);
        [apply binary_normalize_sign|].
      destruct (Z.ltb_spec d 0); destruct (Z.ltb_spec (Z.quot d 3600000000000) 0); lia.
  - destruct (Z.eq_dec (Z.rem d 3600000000000) 0) as [Hz|Hz].
    + apply has_sign_zero_int, Hz.
    + replace (d <? 0) with (Z.rem d 3600000000000 <? 0);
        [apply binary_normalize_sign|].
      destruct (Z.ltb_spec d 0); destruct (Z.ltb_spec (Z.rem d 3600000000000) 0); lia.
Qed.

Lemma has_sign_num neg x :
  has_sign neg x -> if neg then num x <= 0 else 0 <= num x.
Proof.
  destruct x as [s|s| |s m e]; simpl; intros H; try (destruct neg; lia).
  subst s. destruct neg; destruct (0 <=? e); try lia;
    pose proof (Z.pow_nonneg 2 e ltac:(lia)); nia.
Qed.

Lemma small_is_finite X K x : small X K x -> is_finite x = true.
Proof. destruct x; simpl; tauto. Qed.

(** A bounded float converts to an [int] of bounded size. *)
Lemma small_to_int X K x : 0 <= K -> small X K x -> Z.abs (to_int x) < 2 ^ K.
Proof.
  intros HK Hx. destruct x as [s| | |s m e]; try contradiction.
  - simpl. apply Z.pow_pos_nonneg; lia.
  - destruct Hx as [_ Hmag]. unfold to_int.
    pose proof (Zdigits2_bound (Z.pos m)) as Hb.
    pose proof (Zdigits2_nonneg (Z.pos m)) as Hd.
    assert (Ha : 0 <= Z.shiftl (Z.pos m) e < 2 ^ K).
    { destruct (Z.le_gt_cases 0 e) as [He|He].
      - rewrite Z.shiftl_mul_pow2 by lia. split.
        + apply Z.mul_nonneg_nonneg; [lia|apply Z.pow_nonneg; lia].
        + apply Z.lt_le_trans with (2 ^ Zdigits2 (Z.pos m) * 2 ^ e).
          * apply Z.mul_lt_mono_pos_r; [apply Z.pow_pos_nonneg; lia|lia].
          * rewrite <- Z.pow_add_r by lia. apply Z.pow_le_mono_r; lia.
      - assert (Hs : Z.shiftl (Z.pos m) e = Z.pos m / 2 ^ (- e)).
        { rewrite <- Z.shiftr_div_pow2 by lia.
          unfold Z.shiftr. rewrite Z.opp_involutive. reflexivity. }
        rewrite Hs.
        assert (Hp : 0 < 2 ^ (- e)) by (apply Z.pow_pos_nonneg; lia).
        split; [apply Z.div_pos; lia|].
        apply Z.div_lt_upper_bound; [lia|].
        rewrite <- Z.pow_add_r by lia.
        apply Z.lt_le_trans with (2 ^ Zdigits2 (Z.pos m)); [lia|].
        apply Z.pow_le_mono_r; lia. }
    destruct s; lia.
Qed.

Lemma Sub_range t u : time.minDuration <= time.Sub t u <= time.maxDuration.
Proof.
  unfold time.Sub, time.minDuration, time.maxDuration.
  destruct (Z.ltb_spec (t - u) (- 2 ^ 63)); [lia|].
  destruct (Z.ltb_spec (2 ^ 63 - 1) (t - u)); lia.
Qed.

Lemma Sub_sign t u :
  (u <= t -> 0 <= time.Sub t u) /\ (t <= u -> time.Sub t u <= 0).
Proof.
  unfold time.Sub, time.minDuration, time.maxDuration.
  destruct (Z.ltb_spec (t - u) (- 2 ^ 63)); [lia|].
  destruct (Z.ltb_spec (2 ^ 63 - 1) (t - u)); lia.
Qed.

End float64_facts.

(** ** The renewal decision: [needRenewal] *)

Module decision.
Import cmd.

Section Decision.
Context {PrivateKey Resource : Type}.
Variable E : Env PrivateKey Resource.

(** What a call on a leaf certificate does, branch by branch. *)
Lemma needRenewal_leaf cert domain days n :
  IsCA cert = false ->
  needRenewal E cert domain days n =
    if days >=? 0 then
      if daysLeft E cert n >? days then
        mkRun (Return false)
              [EvLog (mkLine "[%s] The certificate expires in %d days, the number of days defined to perform the renewal is %d: no renewal."
                             [ArgStr domain; ArgInt (daysLeft E cert n); ArgInt days])]
              (S n)
      else mkRun (Return true) [] (S n)
    else mkRun (Return true) [] n.
Proof.
  intros Hca. unfold needRenewal, daysLeft. rewrite Hca.
  unfold mbind, M_bind, bind, mret, M_ret, ret. simpl.
  destruct (days >=? 0); [|reflexivity]. simpl.
  destruct (daysOf _ >? days); reflexivity.
Qed.

(** What a call on a CA certificate does. *)
Lemma needRenewal_CA cert domain days n :
  IsCA cert = true ->
  needRenewal E cert domain days n =
    mkRun (Exit (mkLine "[%s] Certificate bundle starts with a CA certificate" [ArgStr domain]))
          [] n.
Proof.
  intros Hca. unfold needRenewal. rewrite Hca. reflexivity.
Qed.

End Decision.

(** C1. For a certificate that is not a CA, any domain and any threshold [d],
    [needRenewal] returns a boolean (it neither exits nor panics), and that
    boolean is true exactly when [d < 0] or the days left [h] it computed
    satisfy [h <= d]; the bound is inclusive: [h = d] gives true, and
    [h = d + 1] with [d >= 0] gives false. *)
Theorem needRenewal_threshold {PrivateKey Resource} (E : Env PrivateKey Resource)
    (cert : Certificate) (domain : string) (d : Z) (n : nat) :
  IsCA cert = false ->
  exists b : bool,
    outcome (needRenewal E cert domain d n) = Return b /\
    (b = true <-> d < 0 \/ daysLeft E cert n <= d) /\
    (daysLeft E cert n = d -> b = true) /\
    (0 <= d -> daysLeft E cert n = d + 1 -> b = false).
Proof.
  intros Hca. rewrite (needRenewal_leaf E cert domain d n Hca).
  destruct (Z.geb_spec d 0) as [Hd|Hd].
  - destruct (Z.gtb_spec (daysLeft E cert n) d) as [Hh|Hh].
    + exists false. simpl. intuition (lia || discriminate).
    + exists true. simpl. intuition lia.
  - exists true. simpl. intuition lia.
Qed.

Lemma needRenewal_threshold_witness :
  IsCA scenario.expiring = false /\
  exists b : bool,
    outcome (needRenewal (scenario.env scenario.expiring (Return tt))
                         scenario.expiring "example.com" 30 0%nat) = Return b /\
    (b = true <-> 30 < 0 \/ daysLeft (scenario.env scenario.expiring (Return tt))
                                      scenario.expiring 0%nat <= 30) /\
    (daysLeft (scenario.env scenario.expiring (Return tt)) scenario.expiring 0%nat = 30 -> b = true) /\
    (0 <= 30 -> daysLeft (scenario.env scenario.expiring (Return tt)) scenario.expiring 0%nat = 30 + 1
       -> b = false).
Proof.
  split; [reflexivity|].
  apply (needRenewal_threshold (scenario.env scenario.expiring (Return tt))
                               scenario.expiring "example.com" 30 0%nat).
  reflexivity.
Defined.

(** C7. For a certificate flagged as a CA, whatever the domain and the
    threshold, [needRenewal] ends the process with a fatal message naming the
    domain, before reading the clock or logging anything, and returns no
    boolean. *)
Theorem needRenewal_CA_fatal {PrivateKey Resource} (E : Env PrivateKey Resource)
    (cert : Certificate) (domain : string) (d : Z) (n : nat) :
  IsCA cert = true ->
  outcome (needRenewal E cert domain d n)
    = Exit (mkLine "[%s] Certificate bundle starts with a CA certificate" [ArgStr domain]) /\
  trace (needRenewal E cert domain d n) = [] /\
  reads (needRenewal E cert domain d n) = n /\
  forall b : bool, outcome (needRenewal E cert domain d n) <> Return b.
Proof.
  intros Hca. rewrite (needRenewal_CA E cert domain d n Hca). simpl.
  repeat split. intros b Hb. discriminate Hb.
Qed.

Lemma needRenewal_CA_fatal_witness :
  IsCA (scenario.leaf true (scenario.t0 + 10 * scenario.day)) = true /\
  forall b : bool,
    outcome (needRenewal (scenario.env scenario.expiring (Return tt))
                         (scenario.leaf true (scenario.t0 + 10 * scenario.day))
                         "example.com" 30 0%nat) <> Return b.
Proof.
  split; [reflexivity|].
  apply (needRenewal_CA_fatal (scenario.env scenario.expiring (Return tt))
                              (scenario.leaf true (scenario.t0 + 10 * scenario.day))
                              "example.com" 30 0%nat).
  reflexivity.
Defined.

(** The days left that the code computes never leave the range of [int]:
    the conversion from [float64] is the plain truncation. *)
Lemma daysLeft_in_range {PrivateKey Resource} (E : Env PrivateKey Resource) cert n :
  - 2 ^ 63 < daysLeft E cert n < 2 ^ 63.
Proof.
  unfold daysLeft, daysOf.
  pose proof (float64_facts.days_quotient_small _
                (float64_facts.Sub_range (NotAfter cert) (clock E n))) as Hs.
  pose proof (float64_facts.small_to_int 59 60 _ ltac:(lia) Hs) as Hb.
  assert (2 ^ 60 < 2 ^ 63) by (apply Z.pow_lt_mono_r; lia).
  lia.
Qed.

(** C5, as the code has it.  For a certificate that is not a CA and a
    threshold [d >= 0], the days left [h] that [needRenewal] compares with
    [d] are the [float64] quotient [q = time.Until(NotAfter).Hours() / 24.0],
    always a finite number, with its fraction discarded: [h] is [q]
    truncated towards zero.  That is [floor q] when [NotAfter] is not in the
    past; when it is in the past it is [ceil q], one more than [floor q]
    unless [q] is an integer, and the decision is to renew. *)
Theorem daysLeft_truncates {PrivateKey Resource} (E : Env PrivateKey Resource)
    (cert : Certificate) (domain : string) (d : Z) (n : nat) :
  IsCA cert = false -> 0 <= d ->
  let q := float64.div (time.Hours (time.Sub (NotAfter cert) (clock E n)))
                       (float64.of_int 24) in
  float64.is_finite q = true /\
  outcome (needRenewal E cert domain d n) = Return (negb (float64.trunc q >? d)) /\
  daysLeft E cert n = float64.trunc q /\
  (clock E n <= NotAfter cert ->
   daysLeft E cert n = float64.floor q /\ 0 <= daysLeft E cert n) /\
  (NotAfter cert <= clock E n ->
   daysLeft E cert n = float64.ceil q /\ daysLeft E cert n <= 0 /\
   outcome (needRenewal E cert domain d n) = Return true) /\
  (float64.num q < 0 -> float64.num q mod float64.den q <> 0 ->
   daysLeft E cert n = float64.floor q + 1).
Proof.
  intros Hca Hd q.
  assert (Hfin : float64.is_finite q = true).
  { apply (float64_facts.small_is_finite 59 60).
    apply float64_facts.days_quotient_small, float64_facts.Sub_range. }
  assert (Hh : daysLeft E cert n = float64.trunc q).
  { unfold daysLeft, daysOf. fold q. apply float64_facts.to_int_trunc, Hfin. }
  assert (Hrun : outcome (needRenewal E cert domain d n)
                 = Return (negb (float64.trunc q >? d))).
  { rewrite (needRenewal_leaf E cert domain d n Hca), Hh.
    destruct (Z.geb_spec d 0); [|lia].
    destruct (float64.trunc q >? d); reflexivity. }
  pose proof (float64_facts.has_sign_num _ _
                (float64_facts.days_quotient_sign (time.Sub (NotAfter cert) (clock E n))))
    as Hsign.
  fold q in Hsign.
  pose proof (float64_facts.Sub_sign (NotAfter cert) (clock E n)) as [Hfuture Hpast].
  pose proof (float64_facts.den_pos q) as Hden.
  split; [exact Hfin|]. split; [exact Hrun|]. split; [exact Hh|]. rewrite Hrun, Hh.
  split; [|split].
  - intros Hle. specialize (Hfuture Hle).
    destruct (Z.ltb_spec (time.Sub (NotAfter cert) (clock E n)) 0) as [|_]; [lia|].
    rewrite (float64_facts.trunc_floor q Hsign). split; [reflexivity|].
    unfold float64.floor. apply Z.div_pos; lia.
  - intros Hle. specialize (Hpast Hle).
    assert (Hnum : float64.num q <= 0).
    { destruct (Z.ltb_spec (time.Sub (NotAfter cert) (clock E n)) 0) as [_|Hge];
        [exact Hsign|].
      assert (Hz : time.Sub (NotAfter cert) (clock E n) = 0) by lia.
      unfold q. rewrite Hz. vm_compute. discriminate. }
    rewrite (float64_facts.trunc_ceil q Hnum).
    assert (Hc : float64.ceil q <= 0).
    { unfold float64.ceil.
      pose proof (Z.div_pos (- float64.num q) (float64.den q) ltac:(lia) Hden). lia. }
    split; [reflexivity|]. split; [exact Hc|].
    destruct (Z.gtb_spec (float64.ceil q) d); [lia|reflexivity].
  - intros Hneg Hfrac. rewrite (float64_facts.floor_lt_trunc q Hneg Hfrac). lia.
Qed.

Lemma daysLeft_truncates_witness :
  let E := scenario.env scenario.expired_12h (Return tt) in
  let cert := scenario.expired_12h in
  let q := float64.div (time.Hours (time.Sub (NotAfter cert) (clock E 0%nat)))
                       (float64.of_int 24) in
  (IsCA cert = false /\ 0 <= 30) /\
  float64.is_finite q = true /\
  outcome (needRenewal E cert "example.com" 30 0%nat)
    = Return (negb (float64.trunc q >? 30)) /\
  daysLeft E cert 0%nat = float64.trunc q /\
  (clock E 0%nat <= NotAfter cert ->
   daysLeft E cert 0%nat = float64.floor q /\ 0 <= daysLeft E cert 0%nat) /\
  (NotAfter cert <= clock E 0%nat ->
   daysLeft E cert 0%nat = float64.ceil q /\ daysLeft E cert 0%nat <= 0 /\
   outcome (needRenewal E cert "example.com" 30 0%nat) = Return true) /\
  (float64.num q < 0 -> float64.num q mod float64.den q <> 0 ->
   daysLeft E cert 0%nat = float64.floor q + 1).
Proof.
  intros E cert q. split; [split; [reflexivity|lia]|].
  apply (daysLeft_truncates E cert "example.com" 30 0%nat); [reflexivity|lia].
Defined.

(** C5, as the specification has it, fails where the certificate has
    expired: 12 hours after [NotAfter] the quotient is -0.5, the code's days
    left are 0, and the floor is -1. *)
Lemma daysLeft_floor_counterexample :
  let E := scenario.env scenario.expired_12h (Return tt) in
  let d := time.Sub (NotAfter scenario.expired_12h) (clock E 0%nat) in
  IsCA scenario.expired_12h = false /\
  d = - (12 * time.Hour) /\
  float64.div (time.Hours d) (float64.of_int 24) = S754_finite true 4503599627370496 (-53) /\
  daysLeft E scenario.expired_12h 0%nat = 0 /\
  spec.daysLeft_floor d = -1 /\
  spec.daysLeft_floor_exact d = -1 /\
  daysLeft E scenario.expired_12h 0%nat <> spec.daysLeft_floor d.
Proof.
  vm_compute. repeat split; discriminate.
Qed.

(** The quotient is a rounded [float64]: one nanosecond short of 365 days
    it is rounded to 365.0, so the days left are 365, not the 364 whole days
    of the exact duration. *)
Remark daysOf_rounds_up :
  daysOf (365 * scenario.day - 1) = 365 /\
  spec.daysLeft_floor (365 * scenario.day - 1) = 365 /\
  spec.daysLeft_floor_exact (365 * scenario.day - 1) = 364.
Proof. vm_compute. repeat split. Qed.

(** With 10 days left and a threshold of 30 the decision is to renew; with
    31 days left it is not. *)
Example needRenewal_10_days :
  outcome (needRenewal (scenario.env scenario.expiring (Return tt))
                       scenario.expiring "example.com" 30 0%nat) = Return true.
Proof. vm_compute. reflexivity. Qed.

Example needRenewal_31_days :
  outcome (needRenewal (scenario.env scenario.expiring (Return tt))
                       (scenario.leaf false (scenario.t0 + 31 * scenario.day))
                       "example.com" 30 0%nat) = Return false.
Proof. vm_compute. reflexivity. Qed.

End decision.

(** ** The domain reconciler: [merge] *)

Module reconciler.
Import cmd.

(** The inner loop decides membership, by exact comparison of strings. *)
Lemma found_elem_of prevDomains next : found prevDomains next = true <-> next ∈ prevDomains.
Proof.
  induction prevDomains as [|prev rest IH]; simpl.
  - split; [discriminate | intros H; inversion H].
  - rewrite elem_of_cons. destruct (String.eqb_spec prev next) as [->|Hne].
    + split; auto.
    + rewrite IH. split; [auto | intros [->|H]; [contradiction | exact H]].
Qed.

Lemma found_false prevDomains next : found prevDomains next = false <-> next ∉ prevDomains.
Proof.
  rewrite <- found_elem_of. destruct (found prevDomains next); split; congruence.
Qed.

(** The loop of the code is the fold of the specification. *)
Lemma merge_Merge prev next : merge prev next = spec.Merge prev next.
Proof.
  unfold spec.Merge. revert prev.
  induction next as [|x next IH]; intros prev; simpl; [reflexivity|].
  destruct (found prev x) eqn:Hf.
  - apply found_elem_of in Hf. rewrite decide_True by exact Hf. apply IH.
  - apply found_false in Hf. rewrite decide_False by exact Hf. apply IH.
Qed.

Section Added.
Implicit Types (x : string) (l prev next : list string).

Lemma remove_dups_snoc l x :
  remove_dups (l ++ [x]) = remove_dups (filter (fun y => y ≠ x) l) ++ [x].
Proof.
  induction l as [|y l IH]; [reflexivity|].
  destruct (decide (y = x)) as [->|Hne].
  - rewrite filter_cons_False by (intros H; apply H; reflexivity).
    rewrite <- IH. simpl. case_decide as Hin; [reflexivity|].
    exfalso. apply Hin, elem_of_app. right. apply list_elem_of_singleton. reflexivity.
  - rewrite filter_cons_True by exact Hne. simpl.
    case_decide as Hin; case_decide as Hin'.
    + exact IH.
    + exfalso. apply Hin', list_elem_of_filter. split; [exact Hne|].
      apply elem_of_app in Hin as [Hin|Hin]; [exact Hin|].
      apply list_elem_of_singleton in Hin. contradiction.
    + exfalso. apply Hin, elem_of_app. left.
      apply list_elem_of_filter in Hin' as [_ Hin']. exact Hin'.
    + rewrite IH. reflexivity.
Qed.

Lemma list_difference_snoc next prev x :
  filter (fun y => y ≠ x) (list_difference next prev) = list_difference next (prev ++ [x]).
Proof.
  induction next as [|y next IH]; [reflexivity|]. simpl.
  case_decide as Hin; case_decide as Hin'.
  - exact IH.
  - exfalso. apply Hin', elem_of_app. left. exact Hin.
  - apply elem_of_app in Hin' as [Hin'|Hin']; [contradiction|].
    apply list_elem_of_singleton in Hin'. subst y.
    rewrite filter_cons_False by (intros H; apply H; reflexivity). exact IH.
  - rewrite filter_cons_True.
    + rewrite IH. reflexivity.
    + intros ->. apply Hin', elem_of_app. right. apply list_elem_of_singleton. reflexivity.
Qed.

Lemma added_nil prev : spec.added prev [] = [].
Proof. reflexivity. Qed.

Lemma added_cons_old prev x next :
  x ∈ prev -> spec.added prev (x :: next) = spec.added prev next.
Proof.
  intros Hin. unfold spec.added. simpl. case_decide; [reflexivity|contradiction].
Qed.

Lemma added_cons_new prev x next :
  x ∉ prev -> spec.added prev (x :: next) = x :: spec.added (prev ++ [x]) next.
Proof.
  intros Hnin. unfold spec.added. simpl. case_decide; [contradiction|].
  rewrite reverse_cons, remove_dups_snoc, reverse_snoc.
  rewrite filter_reverse, list_difference_snoc. reflexivity.
Qed.

Lemma merge_added prev next : merge prev next = prev ++ spec.added prev next.
Proof.
  revert prev. induction next as [|x next IH]; intros prev; simpl.
  - rewrite added_nil, app_nil_r. reflexivity.
  - destruct (found prev x) eqn:Hf.
    + apply found_elem_of in Hf. rewrite added_cons_old by exact Hf. apply IH.
    + apply found_false in Hf. rewrite added_cons_new by exact Hf.
      rewrite IH, <- app_assoc. reflexivity.
Qed.

Lemma added_NoDup prev next : NoDup (spec.added prev next).
Proof. unfold spec.added. rewrite reverse_Permutation. apply NoDup_remove_dups. Qed.

Lemma added_elem_of prev next x : x ∈ spec.added prev next <-> x ∈ next /\ x ∉ prev.
Proof.
  unfold spec.added.
  rewrite elem_of_reverse, elem_of_remove_dups, elem_of_reverse.
  apply list_elem_of_difference.
Qed.

Lemma added_sublist prev next : sublist (spec.added prev next) next.
Proof.
  revert prev. induction next as [|x next IH]; intros prev.
  - rewrite added_nil. constructor.
  - destruct (decide (x ∈ prev)) as [Hin|Hnin].
    + rewrite added_cons_old by exact Hin. apply sublist_cons, IH.
    + rewrite added_cons_new by exact Hnin. apply sublist_skip, IH.
Qed.

Lemma added_length prev next :
  length (spec.added prev next)
    = size (list_to_set next ∖ list_to_set prev : gset string).
Proof.
  rewrite <- (size_list_to_set (C := gset string)) by apply added_NoDup.
  f_equal. apply set_eq. intros x.
  rewrite elem_of_list_to_set, elem_of_difference, !elem_of_list_to_set.
  apply added_elem_of.
Qed.

Lemma merge_elem_of prev next x : x ∈ merge prev next <-> x ∈ prev \/ x ∈ next.
Proof.
  rewrite merge_added, elem_of_app, added_elem_of.
  destruct (decide (x ∈ prev)); tauto.
Qed.

(** Nothing is appended when every requested domain is already there. *)
Lemma merge_nothing_new prev next : (forall x, x ∈ next -> x ∈ prev) -> merge prev next = prev.
Proof.
  induction next as [|x next IH]; intros Hall; simpl; [reflexivity|].
  rewrite (proj2 (found_elem_of prev x)) by (apply Hall; left).
  apply IH. intros y Hy. apply Hall. right. exact Hy.
Qed.

End Added.

(** C2. [merge prev next] is [prev], unchanged and in its order, followed by
    the domains of [next] that are not yet in the result (compared exactly,
    so by case too), each once, in the order of [next]: it is the fold of
    section 4.2; what follows [prev] has no duplicates, holds exactly the
    members of [next] outside [prev], and is a subsequence of [next].  Hence
    the length is [len(prev) + |next \ prev|], and
    [merge ["a.com"] ["a.com"; "b.com"] = ["a.com"; "b.com"]]. *)
Theorem merge_prefix_then_new (prev next : list string) :
  merge prev next = spec.Merge prev next /\
  merge prev next = prev ++ spec.added prev next /\
  NoDup (spec.added prev next) /\
  (forall x, x ∈ spec.added prev next <-> x ∈ next /\ x ∉ prev) /\
  sublist (spec.added prev next) next /\
  length (merge prev next)
    = (length prev + size (list_to_set next ∖ list_to_set prev : gset string))%nat /\
  merge ["a.com"] ["a.com"; "b.com"] = ["a.com"; "b.com"] /\
  merge ["a.com"] ["A.com"] = ["a.com"; "A.com"].
Proof.
  split; [apply merge_Merge|].
  split; [apply merge_added|].
  split; [apply added_NoDup|].
  split; [intros x; apply added_elem_of|].
  split; [apply added_sublist|].
  split; [rewrite merge_added, length_app, added_length; reflexivity|].
  split; reflexivity.
Qed.

(** C9. Merging the same list a second time changes nothing. *)
Theorem merge_idempotent (p n : list string) : merge (merge p n) n = merge p n.
Proof.
  apply merge_nothing_new. intros x Hx. apply merge_elem_of. right. exact Hx.
Qed.

End reconciler.

(** ** The renewal workflow and its hook *)

Module workflow.
Import cmd.

Section Wp.
Context {PrivateKey Resource : Type}.
Lemma wp_ret {A} (a : A) n (Q : Outcome A -> list (Event PrivateKey Resource) -> nat -> Prop) :
  Q (Return a) [] n -> wp (mret a) n Q.
Proof. exact (fun H => H). Qed.

Lemma wp_lift {A} (o : Outcome A) n (Q : Outcome A -> list (Event PrivateKey Resource) -> nat -> Prop) :
  Q o [] n -> wp (lift o) n Q.
Proof. exact (fun H => H). Qed.

Lemma wp_emit (e : Event PrivateKey Resource) n Q :
  Q (Return tt) [e] n -> wp (emit e) n Q.
Proof. exact (fun H => H). Qed.

Lemma wp_bind {A B} (m : M PrivateKey Resource A) (k : A -> M PrivateKey Resource B) n Q :
  wp m n (fun o tr n' =>
            match o with
            | Return a => wp (k a) n' (fun o' tr' n'' => Q o' (tr ++ tr') n'')
            | Exit line => Q (Exit line) tr n'
            | Panic reason => Q (Panic reason) tr n'
            end) ->
  wp (m ≫= k) n Q.
Proof.
  unfold wp, mbind, M_bind, bind. destruct (outcome (m n)); simpl; auto.
Qed.

Lemma wp_time_Now (E : Env PrivateKey Resource) n Q :
  Q (Return (clock E n)) [] (S n) -> wp (time_Now E) n Q.
Proof. exact (fun H => H). Qed.

Lemma wp_run {A} (m : M PrivateKey Resource A) n Q :
  wp m n Q -> Q (outcome (m n)) (trace (m n)) (reads (m n)).
Proof. exact (fun H => H). Qed.

End Wp.

Ltac wp_step :=
  lazymatch goal with
  | |- wp (mbind _ _) _ _ => apply wp_bind
  | |- wp (mret _) _ _ => apply wp_ret
  | |- wp (lift _) _ _ => apply wp_lift
  | |- wp (emit _) _ _ => apply wp_emit
  | |- wp (log_Fatalf _ _) _ _ => apply wp_lift
  | |- wp (log_Fatal _) _ _ => apply wp_lift
  | |- wp (log_Printf _ _) _ _ => apply wp_emit
  | |- wp (log_Infof _ _) _ _ => apply wp_emit
  | |- wp (time_Now _) _ _ => apply wp_time_Now
  | |- wp (time_Until _ _) _ _ => unfold time_Until
  | |- wp (index0 ?l) _ _ => destruct l eqn:?; unfold index0
  | |- wp (call_Obtain _ _) _ _ => unfold call_Obtain
  | |- wp (call_ObtainForCSR _ _ _) _ _ => unfold call_ObtainForCSR
  | |- wp (call_SaveResource _ _) _ _ => unfold call_SaveResource
  | |- wp (call_launchHook _ _ _) _ _ => unfold call_launchHook
  | |- wp (needRenewal _ _ _ _) _ _ => unfold needRenewal
  | |- wp (match ?x with _ => _ end) _ _ => destruct x eqn:?
  | |- match ?x with _ => _ end => destruct x eqn:?
  end.

Ltac wp_exec := repeat (wp_step; cbv beta iota zeta; cbn [negb]).

Section Contract.
Context {PrivateKey Resource : Type}.
Variable E : Env PrivateKey Resource.

Ltac leaf_left :=
  left; split; [reflexivity|]; split;
  [ first [ left; reflexivity
          | right; eexists; split; [reflexivity|congruence] ]
  | split;
    [ let Hs := fresh "Hs" in intros Hs; first [ split; reflexivity | lazy in Hs; discriminate Hs ]
    | let e' := fresh "e" in
      let He := fresh "He" in
      intros e' He;
      first [ discriminate He
            | injection He as <-; split;
              [ reflexivity
              | first [ left; reflexivity | right; lazy; reflexivity ] ] ] ] ].

Ltac leaf_right :=
  right;
  repeat match goal with u : unit |- _ => destruct u end;
  match goal with
  | |- context [<[renewEnvCertDomain := ?d]> _] => exists d
  end;
  eexists; split; [reflexivity|]; split; [reflexivity|]; split; [eassumption|];
  split; [lazy; reflexivity|]; split; reflexivity.

Ltac leaf := cbn [app]; first [leaf_left | leaf_right].

Lemma renewForDomains_contract ctx bundle email n :
  wp (renewForDomains E ctx bundle {[ renewEnvAccountEmail := email ]}) n
     (fun o tr _ => contract E (flag_renew_hook ctx) email o tr).
Proof.
  unfold renewForDomains. wp_exec; try discriminate; leaf.
Qed.

Lemma renewForCSR_contract ctx bundle email n :
  wp (renewForCSR E ctx bundle {[ renewEnvAccountEmail := email ]}) n
     (fun o tr _ => contract E (flag_renew_hook ctx) email o tr).
Proof.
  unfold renewForCSR. wp_exec; try discriminate; leaf.
Qed.

Lemma renew_run_contract ctx n :
  renew_contract E ctx (outcome (renew E ctx n)) (trace (renew E ctx n)).
Proof.
  apply (wp_run (renew E ctx) n (fun o tr _ => renew_contract E ctx o tr)).
  unfold renew, renew_contract. wp_exec; try (split; [reflexivity | discriminate]).
  all: first [apply renewForCSR_contract | apply renewForDomains_contract | leaf].
Qed.

(** A skip is a call of [needRenewal] that returns false: it is then, and
    only then, that the line is logged. *)
Lemma needRenewal_false_skipped cert domain d n :
  outcome (needRenewal E cert domain d n) = Return false <->
  skipped (trace (needRenewal E cert domain d n)) = true.
Proof.
  destruct (IsCA cert) eqn:Hca.
  - rewrite (decision.needRenewal_CA E cert domain d n Hca). simpl. split; discriminate.
  - rewrite (decision.needRenewal_leaf E cert domain d n Hca).
    destruct (d >=? 0); [destruct (daysLeft E cert n >? d)|]; cbn [outcome trace];
      split; intros H; first [discriminate H | reflexivity].
Qed.

(** The metadata holds the four fixed keys and nothing else. *)
Lemma hookMetadata_dom email domain :
  dom (hookMetadata E email domain)
    = ({[ renewEnvAccountEmail; renewEnvCertDomain; renewEnvCertPath; renewEnvCertKeyPath ]}
       : gset string).
Proof.
  unfold hookMetadata. rewrite !dom_insert_L, dom_singleton_L. set_solver.
Qed.

Lemma hookMetadata_lookup email domain :
  hookMetadata E email domain !! renewEnvAccountEmail = Some email /\
  hookMetadata E email domain !! renewEnvCertDomain = Some domain /\
  hookMetadata E email domain !! renewEnvCertPath = Some (GetFileName E domain ".crt") /\
  hookMetadata E email domain !! renewEnvCertKeyPath = Some (GetFileName E domain ".key").
Proof.
  unfold hookMetadata. repeat split.
Qed.

End Contract.

(** C6, as the code has it.  In a run of [renew]:
    - the hook is launched at most once; when it is, it is the last call of
      the run, the run returns what the launcher returns, and the metadata
      are those of the account and the domain;
    - it is launched if and only if a certificate was obtained and
      [SaveResource] then returned (storing the certificate did not end the
      process);
    - it is not launched on a skip (when [needRenewal] returned false), nor
      when the run ends in [log.Fatal] or a panic;
    - the metadata hold exactly the four keys [LEGO_ACCOUNT_EMAIL],
      [LEGO_CERT_DOMAIN], [LEGO_CERT_PATH] and [LEGO_CERT_KEY_PATH], with the
      account's email, the domain and the two file names. *)
Theorem hook_iff_issued_and_stored {PrivateKey Resource} (E : Env PrivateKey Resource)
    (ctx : Context) (n : nat) :
  let r := renew E ctx n in
  let hook := flag_renew_hook ctx in
  (hooks (trace r) = [] \/
   exists account domain,
     setup E ctx = Return account /\
     hooks (trace r) = [(hook, hookMetadata E (Email account) domain)] /\
     last (trace r) = Some (EvLaunchHook hook (hookMetadata E (Email account) domain)) /\
     outcome r = Return (launchHook E hook (hookMetadata E (Email account) domain))) /\
  (hooks (trace r) <> [] <->
   exists res, issued (trace r) = [res] /\ SaveResource E res = Return tt) /\
  (skipped (trace r) = true ->
   hooks (trace r) = [] /\ issued (trace r) = [] /\ outcome r = Return None) /\
  (forall cert domain d m,
     outcome (needRenewal E cert domain d m) = Return false <->
     skipped (trace (needRenewal E cert domain d m)) = true) /\
  (forall line, outcome r = Exit line -> hooks (trace r) = []) /\
  (forall reason, outcome r = Panic reason -> hooks (trace r) = []) /\
  (forall email domain,
     dom (hookMetadata E email domain)
       = ({[ renewEnvAccountEmail; renewEnvCertDomain; renewEnvCertPath; renewEnvCertKeyPath ]}
          : gset string) /\
     hookMetadata E email domain !! renewEnvAccountEmail = Some email /\
     hookMetadata E email domain !! renewEnvCertDomain = Some domain /\
     hookMetadata E email domain !! renewEnvCertPath = Some (GetFileName E domain ".crt") /\
     hookMetadata E email domain !! renewEnvCertKeyPath = Some (GetFileName E domain ".key")).
Proof.
  intros r hook. pose proof (renew_run_contract E ctx n) as H.
  fold r in H. unfold renew_contract in H.
  assert (Hmeta : forall email domain,
     dom (hookMetadata E email domain)
       = ({[ renewEnvAccountEmail; renewEnvCertDomain; renewEnvCertPath; renewEnvCertKeyPath ]}
          : gset string) /\
     hookMetadata E email domain !! renewEnvAccountEmail = Some email /\
     hookMetadata E email domain !! renewEnvCertDomain = Some domain /\
     hookMetadata E email domain !! renewEnvCertPath = Some (GetFileName E domain ".crt") /\
     hookMetadata E email domain !! renewEnvCertKeyPath = Some (GetFileName E domain ".key")).
  { intros email domain. split; [apply hookMetadata_dom | apply hookMetadata_lookup]. }
  pose proof (needRenewal_false_skipped E) as Hskip.
  assert (Hnone : trace r = [] -> (forall e, outcome r <> Return e) ->
    (hooks (trace r) = [] \/
     exists account domain,
       setup E ctx = Return account /\
       hooks (trace r) = [(hook, hookMetadata E (Email account) domain)] /\
       last (trace r) = Some (EvLaunchHook hook (hookMetadata E (Email account) domain)) /\
       outcome r = Return (launchHook E hook (hookMetadata E (Email account) domain))) /\
    (hooks (trace r) <> [] <->
     exists res, issued (trace r) = [res] /\ SaveResource E res = Return tt) /\
    (skipped (trace r) = true ->
     hooks (trace r) = [] /\ issued (trace r) = [] /\ outcome r = Return None) /\
    (forall line, outcome r = Exit line -> hooks (trace r) = []) /\
    (forall reason, outcome r = Panic reason -> hooks (trace r) = [])).
  { intros Htr Ho. rewrite Htr. cbn [hooks issued omap list_omap skipped existsb].
    split; [left; reflexivity|].
    split; [split; [intros Hne; contradiction | intros (res & Hres & _); discriminate Hres]|].
    split; [intros Hsk; discriminate Hsk|].
    split; intros; reflexivity. }
  destruct (setup E ctx) as [account|line|reason] eqn:Hsetup.
  - destruct H as [(Hh & Hi & Hs & _) | (domain & res & Hh & Hi & Hsave & Hs & Hl & Ho)].
    + split; [left; exact Hh|].
      split.
      { rewrite Hh. split; [intros Hne; contradiction|].
        intros (res & Hres & Hsave).
        destruct Hi as [Hi | (res' & Hi & Hns)]; [congruence|].
        rewrite Hi in Hres. injection Hres as ->. contradiction. }
      split; [intros Hsk; destruct (Hs Hsk) as [Hi' Ho']; auto|].
      split; [exact Hskip|].
      split; [intros; exact Hh|]. split; [intros; exact Hh|]. exact Hmeta.
    + split; [right; exists account, domain; auto|].
      split.
      { rewrite Hh. split; [|intros _; discriminate].
        intros _. exists res. split; [exact Hi | exact Hsave]. }
      split; [intros Hsk; congruence|].
      split; [exact Hskip|].
      split; [intros line Hline; congruence|]. split; [intros reason Hreason; congruence|].
      exact Hmeta.
  - destruct H as [Htr Ho]. destruct (Hnone Htr Ho) as (H1 & H2 & H3 & H4 & H5).
    repeat (split; [assumption|]). exact Hmeta.
  - destruct H as [Htr Ho]. destruct (Hnone Htr Ho) as (H1 & H2 & H3 & H4 & H5).
    repeat (split; [assumption|]). exact Hmeta.
Qed.

(** C6, as the specification has it, fails when the certificate is obtained
    but cannot be stored: the issuance succeeded, [SaveResource] ended the
    process, and no hook was launched. *)
Lemma hook_iff_issuance_counterexample :
  let r := renew (scenario.env scenario.expiring scenario.disk_full) scenario.ctx 0%nat in
  issued (trace r) = ["issued"] /\
  hooks (trace r) = [] /\
  outcome r = Exit (mkLine "Unable to save Certificate for domain %s\n\t%v"
                           [ArgStr "example.com";
                            ArgErr (external_error "no space left on device")]) /\
  ~ (hooks (trace r) <> [] <-> issued (trace r) <> []).
Proof.
  assert (Hr : trace (renew (scenario.env scenario.expiring scenario.disk_full)
                            scenario.ctx 0%nat)
               = [EvLog (mkLine "[%s] acme: Trying renewal with %d hours remaining"
                                [ArgStr "example.com"; ArgInt 240]);
                  EvObtain {| Domains := ["example.com"]; Bundle := true;
                              PrivateKey_ := None; MustStaple := false |} (Ok "issued");
                  EvSaveResource "issued"]).
  { vm_compute. reflexivity. }
  cbv zeta. rewrite Hr. cbn [issued hooks omap list_omap].
  split; [reflexivity|]. split; [reflexivity|]. split; [vm_compute; reflexivity|].
  intros [_ H]. apply H; [discriminate | reflexivity].
Qed.

(** The end-to-end run of section 8: [example.com], threshold 30, 10 days
    left, a successful issuance: one hook, on these metadata. *)
Example renew_example_com :
  let E := scenario.env scenario.expiring (Return tt) in
  let r := renew E scenario.ctx 0%nat in
  hooks (trace r) = [("./deploy.sh", hookMetadata E "admin@example.com" "example.com")] /\
  outcome r = Return None /\
  hookMetadata E "admin@example.com" "example.com" !! "LEGO_ACCOUNT_EMAIL"
    = Some "admin@example.com" /\
  hookMetadata E "admin@example.com" "example.com" !! "LEGO_CERT_DOMAIN"
    = Some "example.com" /\
  hookMetadata E "admin@example.com" "example.com" !! "LEGO_CERT_PATH"
    = Some "/certs/example.com.crt" /\
  hookMetadata E "admin@example.com" "example.com" !! "LEGO_CERT_KEY_PATH"
    = Some "/certs/example.com.key".
Proof.
  cbv zeta. repeat split; vm_compute; reflexivity.
Qed.

End workflow.

(** ** The ArvanCloud provider *)

Module provider.
Import arvancloud.

Section Construction.
Context {Backend : Type}.
Variable D : Deps Backend.

(** A configuration that passes the checks gives a provider that holds it. *)
Lemma NewDNSProviderConfig_Ok c p :
  NewDNSProviderConfig D (Some c) = Ok p ->
  config p = c /\ APIKey c <> EmptyString /\ minTTL <= TTL c.
Proof.
  unfold NewDNSProviderConfig.
  destruct (String.eqb_spec (APIKey c) EmptyString) as [He|He]; [discriminate|].
  destruct (Z.ltb_spec (TTL c) minTTL) as [Ht|Ht]; [discriminate|].
  intros H. injection H as <-. simpl. auto.
Qed.

Lemma NewDNSProviderConfig_accepts c :
  APIKey c <> EmptyString -> minTTL <= TTL c ->
  exists p, NewDNSProviderConfig D (Some c) = Ok p /\ config p = c.
Proof.
  intros He Ht. unfold NewDNSProviderConfig.
  destruct (String.eqb_spec (APIKey c) EmptyString) as [He'|_]; [contradiction|].
  destruct (Z.ltb_spec (TTL c) minTTL) as [Ht'|_]; [lia|].
  eexists. split; reflexivity.
Qed.

End Construction.

(** C8. [NewDNSProviderConfig] returns an error exactly when the
    configuration is nil, the API key is empty, or the TTL is below the
    floor of 600, and the error says which; in every other case it returns
    a provider, holding the configuration, and no error.  The check is made
    at construction: the constructor takes no backend and sends no request,
    its result does not depend on the operations of the HTTP client. *)
Theorem NewDNSProviderConfig_error_iff {Backend} (D : Deps Backend) (config : option Config) :
  minTTL = 600 /\
  ((exists e, NewDNSProviderConfig D config = Err e) <->
   config = None \/
   exists c, config = Some c /\ (APIKey c = EmptyString \/ TTL c < minTTL)) /\
  (config = None ->
   NewDNSProviderConfig D config
     = Err (errors_New "arvanCloud: the configuration of the DNS provider is nil")) /\
  (forall c, config = Some c -> APIKey c = EmptyString ->
   NewDNSProviderConfig D config = Err (errors_New "arvanCloud: credentials missing")) /\
  (forall c, config = Some c -> APIKey c <> EmptyString -> TTL c < minTTL ->
   NewDNSProviderConfig D config
     = Err (fmt_Errorf "arvanCloud: invalid TTL, TTL (%d) must be greater than %d"
                       [ArgInt (TTL c); ArgInt minTTL])) /\
  (forall c, config = Some c -> APIKey c <> EmptyString -> minTTL <= TTL c ->
   exists p, NewDNSProviderConfig D config = Ok p /\ arvancloud.config p = c) /\
  (forall D' : Deps Backend, NewClient D' = NewClient D ->
   NewDNSProviderConfig D' config = NewDNSProviderConfig D config).
Proof.
  split; [reflexivity|].
  split.
  { destruct config as [c|]; simpl.
    - destruct (String.eqb_spec (APIKey c) EmptyString) as [He|He].
      + split; [intros _; right; exists c; auto | intros _; eexists; reflexivity].
      + destruct (Z.ltb_spec (TTL c) minTTL) as [Ht|Ht].
        * split; [intros _; right; exists c; auto | intros _; eexists; reflexivity].
        * split; [intros [e He']; discriminate He'|].
          intros [Hn|(c' & Hc & [He'|Ht'])]; [discriminate Hn| |];
            injection Hc as <-; [contradiction|lia].
    - split; [intros _; left; reflexivity | intros _; eexists; reflexivity]. }
  split; [intros ->; reflexivity|].
  split.
  { intros c -> He. simpl. rewrite He. reflexivity. }
  split.
  { intros c -> He Ht. simpl.
    destruct (String.eqb_spec (APIKey c) EmptyString) as [He'|_]; [contradiction|].
    destruct (Z.ltb_spec (TTL c) minTTL) as [_|Ht']; [reflexivity|lia]. }
  split.
  { intros c -> He Ht. apply NewDNSProviderConfig_accepts; assumption. }
  intros D' HD. unfold NewDNSProviderConfig. rewrite HD. reflexivity.
Qed.

(** C3, as the code has it.  The provider built from a configuration
    answers [Timeout()] with the configured propagation timeout and polling
    interval, unchanged; construction does not look at them.  So
    [0 < pollInterval < timeout] holds for the provider exactly when it
    holds for the configuration. *)
Theorem Timeout_is_configured {Backend} (D : Deps Backend) (c : Config) (p : DNSProvider) :
  NewDNSProviderConfig D (Some c) = Ok p ->
  Timeout p = (PropagationTimeout c, PollingInterval c) /\
  (spec.timeout_ok (Timeout p) <-> 0 < PollingInterval c /\ PollingInterval c < PropagationTimeout c).
Proof.
  intros H. apply NewDNSProviderConfig_Ok in H as (Hc & _ & _).
  unfold Timeout, spec.timeout_ok. rewrite Hc. simpl. split; [reflexivity|tauto].
Qed.

Lemma Timeout_is_configured_witness :
  NewDNSProviderConfig (zone.deps (fun s => s)) (Some zone.defaultConfig)
    = Ok (zone.provider zone.defaultConfig) /\
  Timeout (zone.provider zone.defaultConfig) = (120 * time.Second, 2 * time.Second) /\
  (spec.timeout_ok (Timeout (zone.provider zone.defaultConfig)) <->
   0 < 2 * time.Second /\ 2 * time.Second < 120 * time.Second).
Proof.
  split; [reflexivity|].
  apply (Timeout_is_configured (zone.deps (fun s => s)) zone.defaultConfig
                               (zone.provider zone.defaultConfig)).
  reflexivity.
Defined.

(** C3, as the specification has it, fails: a configuration with a key, the
    floor TTL and a propagation timeout of zero is accepted, and its
    provider answers a timeout of 0 and an interval of 2 s. *)
Lemma Timeout_counterexample :
  NewDNSProviderConfig (zone.deps (fun s => s)) (Some zone.impatientConfig)
    = Ok (zone.provider zone.impatientConfig) /\
  Timeout (zone.provider zone.impatientConfig) = (0, 2000000000) /\
  ~ spec.timeout_ok (Timeout (zone.provider zone.impatientConfig)).
Proof.
  split; [reflexivity|]. split; [reflexivity|].
  unfold spec.timeout_ok. simpl. lia.
Qed.

(** C10. [Present] and [CleanUp] do not look at the token: with any two
    tokens they send the same requests, return the same error or nil and
    leave the same backend.  The record [Present] creates has the name and
    the value that [dns01.GetRecord] derives from the domain and the key
    authorization, and [CleanUp] looks up that name and value. *)
Theorem token_is_ignored {Backend} (D : Deps Backend) (d : DNSProvider)
    (domain keyAuth t1 t2 : string) (b : Backend) :
  Present D d domain t1 keyAuth b = Present D d domain t2 keyAuth b /\
  CleanUp D d domain t1 keyAuth b = CleanUp D d domain t2 keyAuth b /\
  (exists record,
     calls (Present D d domain t1 keyAuth b) = [CallCreateRecord domain record] /\
     Name record = extractRecordName D d (fst (GetRecord D domain keyAuth)) domain /\
     Text (Value record) = snd (GetRecord D domain keyAuth)) /\
  hd_error (calls (CleanUp D d domain t1 keyAuth b))
    = Some (CallGetTxtRecord domain
              (extractRecordName D d (fst (GetRecord D domain keyAuth)) domain)
              (snd (GetRecord D domain keyAuth))).
Proof.
  split; [reflexivity|]. split; [reflexivity|]. split.
  - unfold Present. destruct (GetRecord D domain keyAuth) as [fqdn value]. simpl.
    destruct (CreateRecord D _ _ _ b) as [[err|] b']; eexists; simpl; repeat split.
  - unfold CleanUp. destruct (GetRecord D domain keyAuth) as [fqdn value]. simpl.
    destruct (GetTxtRecord D _ _ _ _ b) as [[record|err] b']; [|reflexivity].
    destruct (DeleteRecord D _ _ _ b') as [[err|] b'']; reflexivity.
Qed.

Lemma wraps_refl e : wraps e e.
Proof. destruct e; simpl; left; reflexivity. Qed.

(** What [CleanUp] does when the lookup of the challenge record fails, as
    it does when the record is absent: it returns an error that wraps the
    error of the lookup, sends no delete request and leaves the backend as
    the lookup left it. *)
Lemma CleanUp_lookup_error {Backend} (D : Deps Backend) (d : DNSProvider)
    (domain token keyAuth : string) (b b' : Backend) (err : error) :
  GetTxtRecord D (client d) domain
               (extractRecordName D d (fst (GetRecord D domain keyAuth)) domain)
               (snd (GetRecord D domain keyAuth)) b = (Err err, b') ->
  CleanUp D d domain token keyAuth b
    = {| returned := Some (fmt_Errorf "arvanCloud: %w" [ArgErr err]);
         calls := [CallGetTxtRecord domain
                     (extractRecordName D d (fst (GetRecord D domain keyAuth)) domain)
                     (snd (GetRecord D domain keyAuth))];
         backend := b' |}.
Proof.
  intros H. unfold CleanUp.
  destruct (GetRecord D domain keyAuth) as [fqdn value]. simpl in H |- *. rewrite H.
  reflexivity.
Qed.

(** C4.  When the challenge record is absent at the time of the cleanup
    (never created, or already cleaned), so that its lookup fails, [CleanUp]
    halts nothing and undoes nothing: it returns an error that wraps the
    error of the lookup, sends no delete request and leaves the backend as
    the lookup left it.  The authorization reports that error, and its
    result is the verdict of the validation, whatever it is: the absence is
    no failure of the issuance. *)
Theorem CleanUp_absence_not_fatal {Backend} (D : Deps Backend)
    (validation : Backend -> option error * Backend) (d : DNSProvider)
    (domain token keyAuth : string) (b b1 b2 : Backend)
    (verdict : option error) (err : error) :
  returned (Present D d domain token keyAuth b) = None ->
  validation (backend (Present D d domain token keyAuth b)) = (verdict, b1) ->
  GetTxtRecord D (client d) domain
               (extractRecordName D d (fst (GetRecord D domain keyAuth)) domain)
               (snd (GetRecord D domain keyAuth)) b1 = (Err err, b2) ->
  let cleaned := CleanUp D d domain token keyAuth b1 in
  let a := orchestrator.authorize D validation d domain token keyAuth b in
  (exists e, returned cleaned = Some e /\ wraps err e /\ orchestrator.reported a = [e]) /\
  backend cleaned = b2 /\
  (forall dom id, CallDeleteRecord dom id ∉ calls cleaned) /\
  (forall dom record, CallCreateRecord dom record ∉ calls cleaned) /\
  orchestrator.failure a = verdict /\
  (verdict = None -> orchestrator.failure a = None) /\
  orchestrator.state a = b2.
Proof.
  intros Hp Hv Hl cleaned a. subst cleaned a.
  unfold orchestrator.authorize. rewrite Hp, Hv.
  rewrite (CleanUp_lookup_error D d domain token keyAuth b1 b2 err Hl).
  cbn [returned calls backend orchestrator.reported orchestrator.failure orchestrator.state].
  split; [|split; [reflexivity|split; [|split; [|split; [reflexivity|split; [auto|reflexivity]]]]]].
  - eexists. split; [reflexivity|]. split; [|reflexivity].
    simpl. right. left. apply wraps_refl.
  - intros dom id Hin. apply list_elem_of_singleton in Hin. discriminate Hin.
  - intros dom record Hin. apply list_elem_of_singleton in Hin. discriminate Hin.
Qed.

Lemma CleanUp_absence_not_fatal_witness :
  let D := zone.deps (fun s => s) in
  let d := zone.provider zone.defaultConfig in
  let validated : zone.Zone -> option error * zone.Zone := fun _ => (None, zone.empty) in
  let a := orchestrator.authorize D validated d "example.com" "token" "keyAuth" zone.empty in
  orchestrator.failure a = None /\
  orchestrator.reported a
    = [fmt_Errorf "arvanCloud: %w"
         [ArgErr (fmt_Errorf "could not find record: Domain: %s; Record: %s, Value: %s"
                             [ArgStr "example.com"; ArgStr "_acme-challenge";
                              ArgStr "keyAuth"])]] /\
  orchestrator.state a = zone.empty.
Proof.
  intros D d validated a.
  destruct (CleanUp_absence_not_fatal D validated d "example.com" "token" "keyAuth"
              zone.empty zone.empty zone.empty None
              (fmt_Errorf "could not find record: Domain: %s; Record: %s, Value: %s"
                          [ArgStr "example.com"; ArgStr "_acme-challenge"; ArgStr "keyAuth"])
              eq_refl eq_refl eq_refl)
    as (_ & _ & _ & _ & Hf & _ & Hs).
  split; [exact Hf|]. split; [reflexivity | exact Hs].
Defined.

(** On the zone: a cleanup without a record, never created or already
    cleaned, returns the error of the lookup, wrapped; a cleanup after
    [Present] returns nil and leaves the zone without records. *)
Example CleanUp_on_the_zone :
  let D := zone.deps (fun s => s) in
  let d := zone.provider zone.defaultConfig in
  let never := CleanUp D d "example.com" "token" "keyAuth" zone.empty in
  let presented := Present D d "example.com" "token" "keyAuth" zone.empty in
  let cleaned := CleanUp D d "example.com" "token" "keyAuth" (backend presented) in
  let again := CleanUp D d "example.com" "token" "keyAuth" (backend cleaned) in
  returned never
    = Some (fmt_Errorf "arvanCloud: %w"
              [ArgErr (fmt_Errorf "could not find record: Domain: %s; Record: %s, Value: %s"
                                  [ArgStr "example.com"; ArgStr "_acme-challenge";
                                   ArgStr "keyAuth"])]) /\
  returned presented = None /\
  returned cleaned = None /\
  zone.records (backend cleaned) = [] /\
  returned again = returned never.
Proof.
  vm_compute. repeat split.
Qed.

End provider.

(** ** More on the domain reconciler *)

Module reconciler_more.
Import cmd.

Lemma merge_snoc prev x :
  merge prev [x] = if found prev x then prev else prev ++ [x].
Proof. simpl. destruct (found prev x); reflexivity. Qed.

Lemma merge_app prev next1 next2 :
  merge prev (next1 ++ next2) = merge (merge prev next1) next2.
Proof.
  revert prev. induction next1 as [|x next1 IH]; intros prev; simpl; [reflexivity|].
  destruct (found prev x); apply IH.
Qed.

Lemma merge_assoc a b c : merge (merge a b) c = merge a (merge b c).
Proof.
  revert b. induction c as [|x c IH]; intros b; [reflexivity|].
  change (merge b (x :: c)) with (if found b x then merge b c else merge (b ++ [x]) c).
  destruct (found b x) eqn:Hb.
  - rewrite <- IH. cbn [merge].
    rewrite (proj2 (reconciler.found_elem_of (merge a b) x)); [reflexivity|].
    apply reconciler.merge_elem_of. right. apply reconciler.found_elem_of, Hb.
  - rewrite <- IH, merge_app, merge_snoc. cbn [merge].
    destruct (found (merge a b) x); reflexivity.
Qed.

(** X1. Merging is associative, and merging with a concatenation is merging
    twice: [merge (merge a b) c = merge a (merge b c)] and
    [merge p (n1 ++ n2) = merge (merge p n1) n2]. *)
Theorem merge_associative (a b c : list string) :
  merge (merge a b) c = merge a (merge b c) /\
  merge a (b ++ c) = merge (merge a b) c.
Proof. split; [apply merge_assoc | apply merge_app]. Qed.

(** X2. The result has no duplicate exactly when the previous list has
    none: duplicates of the requested list are dropped, duplicates of the
    previous list are kept. *)
Theorem merge_NoDup (prev next : list string) :
  NoDup (merge prev next) <-> NoDup prev.
Proof.
  rewrite reconciler.merge_added, NoDup_app. split.
  - intros (H & _ & _). exact H.
  - intros H. split; [exact H|]. split; [|apply reconciler.added_NoDup].
    intros x Hx Hx'. apply reconciler.added_elem_of in Hx' as [_ Hn]. contradiction.
Qed.

(** X3. The merge changes nothing exactly when every requested domain is
    already in the previous list; in general its members are those of either
    list, and it is never shorter than the previous list nor longer than both
    lists together. *)
Theorem merge_unchanged_iff (prev next : list string) :
  (merge prev next = prev <-> forall x, x ∈ next -> x ∈ prev) /\
  (forall x, x ∈ merge prev next <-> x ∈ prev \/ x ∈ next) /\
  (length prev <= length (merge prev next) <= length prev + length next)%nat.
Proof.
  split; [|split].
  - split; [|apply reconciler.merge_nothing_new].
    intros H x Hx. rewrite <- H. apply reconciler.merge_elem_of. right. exact Hx.
  - intros x. apply reconciler.merge_elem_of.
  - rewrite reconciler.merge_added, length_app.
    pose proof (sublist_length _ _ (reconciler.added_sublist prev next)). lia.
Qed.

(** X4. The first domain of the result is the first domain of the previous
    list, or of the requested list when the previous list is empty; an empty
    request gives the previous list back. *)
Theorem merge_head (prev next : list string) :
  head (merge prev next) = head (prev ++ next) /\
  merge prev [] = prev.
Proof.
  split; [|reflexivity].
  destruct prev as [|p prev].
  - destruct next as [|x next]; [reflexivity|].
    cbn [merge found app]. rewrite reconciler.merge_added. reflexivity.
  - rewrite reconciler.merge_added. reflexivity.
Qed.

End reconciler_more.

(** ** More on the ArvanCloud provider *)

Module provider_more.
Import arvancloud arvancloud_env.

(** X5. [NewDNSProvider] wraps the error of [env.Get] when the API key is
    not in the environment; otherwise it builds the provider from the
    default configuration with that key: it succeeds exactly when the key is
    not empty and the TTL read from the environment is at least 600, and the
    provider then holds the TTL and the two durations read from the
    environment and the HTTP client with the timeout read there. *)
Theorem NewDNSProvider_from_env {Backend} (V : EnvPkg) (D : Deps Backend) :
  (forall err, env_Get V EnvAPIKey = Err err ->
     NewDNSProvider V D = Err (fmt_Errorf "arvanCloud: %w" [ArgErr err])) /\
  (forall values, env_Get V EnvAPIKey = Ok values ->
     let key := default EmptyString (values !! EnvAPIKey) in
     NewDNSProvider V D
       = NewDNSProviderConfig D (Some (with_APIKey (NewDefaultConfig V) key)) /\
     ((exists p, NewDNSProvider V D = Ok p) <->
      key <> EmptyString /\ minTTL <= env_GetOrDefaultInt V EnvTTL minTTL) /\
     (forall p, NewDNSProvider V D = Ok p ->
        APIKey (config p) = key /\
        TTL (config p) = env_GetOrDefaultInt V EnvTTL minTTL /\
        Timeout p = (env_GetOrDefaultSecond V EnvPropagationTimeout (120 * time.Second),
                     env_GetOrDefaultSecond V EnvPollingInterval (2 * time.Second)) /\
        client_HTTPClient (client p)
          = Some {| http_Timeout :=
                      env_GetOrDefaultSecond V EnvHTTPTimeout (30 * time.Second) |})).
Proof.
  split.
  - intros err H. unfold NewDNSProvider. rewrite H. reflexivity.
  - intros values H key. unfold NewDNSProvider. rewrite H. fold key.
    split; [reflexivity|]. cbv zeta. fold key.
    unfold NewDNSProviderConfig. cbn [APIKey TTL with_APIKey NewDefaultConfig HTTPClient].
    destruct (String.eqb_spec key EmptyString) as [Hk|Hk].
    + split; [|intros p Hp; discriminate Hp].
      split; [intros [p Hp]; discriminate Hp | intros [Hne _]; contradiction].
    + destruct (Z.ltb_spec (env_GetOrDefaultInt V EnvTTL minTTL) minTTL) as [Ht|Ht].
      * split; [|intros p Hp; discriminate Hp].
        split; [intros [p Hp]; discriminate Hp | intros [_ Hle]; lia].
      * split; [split; [intros _; split; assumption | intros _; eexists; reflexivity]|].
        intros p Hp. injection Hp as <-. repeat split.
Qed.

(** X6. With the API key in the environment, not empty, and the optional
    variables reading as their defaults, [NewDNSProvider] succeeds: the
    provider has the TTL 600, a propagation timeout of 120 s and a polling
    interval of 2 s, so that [0 < pollInterval < timeout]. *)
Theorem NewDNSProvider_defaults {Backend} (V : EnvPkg) (D : Deps Backend)
    (values : gmap string string) (key : string) :
  env_Get V EnvAPIKey = Ok values ->
  values !! EnvAPIKey = Some key -> key <> EmptyString ->
  env_GetOrDefaultInt V EnvTTL minTTL = minTTL ->
  env_GetOrDefaultSecond V EnvPropagationTimeout (120 * time.Second) = 120 * time.Second ->
  env_GetOrDefaultSecond V EnvPollingInterval (2 * time.Second) = 2 * time.Second ->
  exists p,
    NewDNSProvider V D = Ok p /\
    APIKey (config p) = key /\
    TTL (config p) = 600 /\
    Timeout p = (120000000000, 2000000000) /\
    spec.timeout_ok (Timeout p).
Proof.
  intros Hget Hkey Hne Httl Hprop Hpoll.
  unfold NewDNSProvider. rewrite Hget, Hkey.
  change (default EmptyString (Some key)) with key. cbv zeta.
  unfold NewDNSProviderConfig. cbn [APIKey TTL with_APIKey NewDefaultConfig HTTPClient].
  destruct (String.eqb_spec key EmptyString) as [Hk|_]; [contradiction|].
  rewrite Httl. destruct (Z.ltb_spec minTTL minTTL) as [Hlt|_]; [lia|].
  eexists. split; [reflexivity|]. unfold Timeout, spec.timeout_ok.
  cbn [config APIKey TTL PropagationTimeout PollingInterval fst snd with_APIKey NewDefaultConfig].
  rewrite Hprop, Hpoll, Httl. repeat split; reflexivity.
Qed.

Lemma NewDNSProvider_defaults_witness :
  exists p,
    NewDNSProvider (only_key "secret") (zone.deps (fun s => s)) = Ok p /\
    APIKey (config p) = "secret" /\
    TTL (config p) = 600 /\
    Timeout p = (120000000000, 2000000000) /\
    spec.timeout_ok (Timeout p).
Proof.
  apply (NewDNSProvider_defaults (only_key "secret") (zone.deps (fun s => s))
           {[ EnvAPIKey := "secret" ]} "secret");
    first [reflexivity | discriminate].
Defined.

(** *** [Present] and [CleanUp]: the requests they send *)

(** X7. [Present] sends one request, the creation under the domain of a
    record of type [txt], without identifier, with the configured TTL and
    the fixed routing fields; it returns nil exactly when the creation
    succeeded, and otherwise an error that wraps the error of the creation;
    the backend is left as the creation left it. *)
Theorem Present_sends_one_create {Backend} (D : Deps Backend) (d : DNSProvider)
    (domain token keyAuth : string) (b : Backend) :
  let r := Present D d domain token keyAuth b in
  exists record,
    calls r = [CallCreateRecord domain record] /\
    ID record = EmptyString /\ Type_ record = "txt" /\
    record_TTL record = TTL (config d) /\
    UpstreamHTTPS record = "default" /\
    record_IPFilterMode record = {| Count := "single"; GeoFilter := "none"; Order := "none" |} /\
    backend r = snd (CreateRecord D (client d) domain record b) /\
    (returned r = None <-> fst (CreateRecord D (client d) domain record b) = None) /\
    (forall err, fst (CreateRecord D (client d) domain record b) = Some err ->
       exists e, returned r = Some e /\ wraps err e).
Proof.
  intros r. subst r. unfold Present.
  destruct (GetRecord D domain keyAuth) as [fqdn value].
  match goal with
  | |- context [CreateRecord D (client d) domain ?rec b] => exists rec
  end.
  destruct (CreateRecord D (client d) domain _ b) as [[err|] b'];
    cbn [calls backend returned fst snd ID Type_ record_TTL UpstreamHTTPS record_IPFilterMode].
  - repeat split; try discriminate.
    intros err' Herr. injection Herr as <-. eexists. split; [reflexivity|].
    simpl. right. left. apply provider.wraps_refl.
  - repeat split; try discriminate.
Qed.

(** X8. The provider keeps the pointer to the configuration it was built
    from, and [Present] reads the TTL through it when it is called: the
    record it asks for has the TTL the caller's configuration holds at that
    time.  That TTL was at least 600 at the construction and is not checked
    again: the record's TTL is at least 600 as long as the configuration's
    TTL is as it was then, and a TTL written afterwards is sent as it is. *)
Theorem Present_TTL_at_call {Backend} (D : Deps Backend) (s s' : arvancloud_ref.Store)
    (a : arvancloud_ref.ptr) (p : arvancloud_ref.DNSProvider)
    (domain token keyAuth : string) (b : Backend) :
  arvancloud_ref.NewDNSProviderConfig D s (Some a) = Ok p ->
  arvancloud_ref.config p = a /\
  600 <= TTL (s a) /\
  forall dom record,
    CallCreateRecord dom record ∈ calls (arvancloud_ref.Present D s' p domain token keyAuth b) ->
    record_TTL record = TTL (s' a) /\
    (TTL (s' a) = TTL (s a) -> 600 <= record_TTL record) /\
    (forall ttl, s' = arvancloud_ref.set_TTL s a ttl -> record_TTL record = ttl).
Proof.
  intros Hp. unfold arvancloud_ref.NewDNSProviderConfig in Hp.
  destruct (String.eqb (APIKey (s a)) EmptyString); [discriminate Hp|].
  destruct (Z.ltb_spec (TTL (s a)) minTTL) as [|Httl]; [discriminate Hp|].
  injection Hp as <-. cbn [arvancloud_ref.config]. unfold minTTL in Httl.
  split; [reflexivity|]. split; [exact Httl|].
  intros dom record Hin.
  assert (Hr : record_TTL record = TTL (s' a)).
  { unfold arvancloud_ref.Present, Present in Hin.
    destruct (GetRecord D domain keyAuth) as [fqdn value].
    destruct (CreateRecord D _ domain _ b) as [[err|] b'];
      cbn [calls] in Hin; apply list_elem_of_singleton in Hin;
      injection Hin as -> ->; reflexivity. }
  split; [exact Hr|]. split.
  - intros Heq. rewrite Hr, Heq. exact Httl.
  - intros ttl ->. rewrite Hr. unfold arvancloud_ref.set_TTL.
    rewrite Nat.eqb_refl. reflexivity.
Qed.

(** The caller writes [cfg.TTL = 1] after the construction: [Present] asks
    for a record with the TTL 1. *)
Lemma Present_TTL_at_call_witness :
  let D := zone.deps (fun s => s) in
  let s : arvancloud_ref.Store := fun _ => zone.defaultConfig in
  let p := {| arvancloud_ref.config := 0%nat;
              arvancloud_ref.client := client (zone.provider zone.defaultConfig) |} in
  arvancloud_ref.NewDNSProviderConfig D s (Some 0%nat) = Ok p /\
  600 <= TTL (s 0%nat) /\
  exists record,
    CallCreateRecord "example.com" record
      ∈ calls (arvancloud_ref.Present D (arvancloud_ref.set_TTL s 0%nat 1) p
                                      "example.com" "token" "keyAuth" zone.empty) /\
    record_TTL record = 1.
Proof.
  intros D s p.
  assert (Hp : arvancloud_ref.NewDNSProviderConfig D s (Some 0%nat) = Ok p) by reflexivity.
  split; [exact Hp|].
  destruct (Present_TTL_at_call D s (arvancloud_ref.set_TTL s 0%nat 1) 0%nat p
              "example.com" "token" "keyAuth" zone.empty Hp) as (_ & Hfloor & Hcall).
  split; [exact Hfloor|].
  assert (Hcs : exists record,
             CallCreateRecord "example.com" record
               ∈ calls (arvancloud_ref.Present D (arvancloud_ref.set_TTL s 0%nat 1) p
                                               "example.com" "token" "keyAuth" zone.empty)).
  { eexists. apply list_elem_of_here. }
  destruct Hcs as [record Hin]. exists record. split; [exact Hin|].
  exact (proj2 (proj2 (Hcall "example.com" record Hin)) 1 eq_refl).
Defined.

(** X9. [CleanUp] first looks the record up, by the domain and the name and
    value of the challenge; only when a record is found does it send a
    second request, the deletion of the identifier of that record.  It
    returns nil exactly when both requests succeeded, wraps the error of the
    deletion otherwise, and never creates a record. *)
Theorem CleanUp_lookup_then_delete {Backend} (D : Deps Backend) (d : DNSProvider)
    (domain token keyAuth : string) (b : Backend) :
  let r := CleanUp D d domain token keyAuth b in
  let name := extractRecordName D d (fst (GetRecord D domain keyAuth)) domain in
  let value := snd (GetRecord D domain keyAuth) in
  let lookup := GetTxtRecord D (client d) domain name value b in
  ((exists err, fst lookup = Err err /\
                calls r = [CallGetTxtRecord domain name value] /\
                backend r = snd lookup) \/
   exists record,
     fst lookup = Ok record /\
     calls r = [CallGetTxtRecord domain name value; CallDeleteRecord domain (ID record)] /\
     backend r = snd (DeleteRecord D (client d) domain (ID record) (snd lookup)) /\
     (forall err, fst (DeleteRecord D (client d) domain (ID record) (snd lookup)) = Some err ->
        exists e, returned r = Some e /\ wraps err e)) /\
  (returned r = None <->
   exists record,
     fst lookup = Ok record /\
     fst (DeleteRecord D (client d) domain (ID record) (snd lookup)) = None) /\
  (forall dom record, CallCreateRecord dom record ∉ calls r).
Proof.
  intros r name value lookup. subst r name value lookup. unfold CleanUp.
  destruct (GetRecord D domain keyAuth) as [fqdn value]. cbn [fst snd].
  destruct (GetTxtRecord D (client d) domain _ value b) as [[record|err] b'];
    cbn [fst snd].
  - destruct (DeleteRecord D (client d) domain (ID record) b') as [[err|] b''] eqn:Hdel;
      cbn [calls backend returned].
    + split; [right; exists record; rewrite Hdel; cbn [fst snd]; repeat split|].
      * intros err' Herr. injection Herr as <-. eexists. split; [reflexivity|].
        simpl. right. left. apply provider.wraps_refl.
      * split.
        -- split; [discriminate|]. intros (record' & Hr & Hd).
           injection Hr as <-. rewrite Hdel in Hd. discriminate Hd.
        -- intros dom rec Hin.
           repeat (apply elem_of_cons in Hin as [Hin|Hin]; [discriminate Hin|]).
           inversion Hin.
    + split; [right; exists record; rewrite Hdel; cbn [fst snd]; repeat split|].
      * intros err Herr. discriminate Herr.
      * split.
        -- split; [|reflexivity]. intros _. exists record. rewrite Hdel. split; reflexivity.
        -- intros dom rec Hin.
           repeat (apply elem_of_cons in Hin as [Hin|Hin]; [discriminate Hin|]).
           inversion Hin.
  - cbn [calls backend returned].
    split; [left; exists err; repeat split; reflexivity|]. split.
    + split; [discriminate|]. intros (record & Hr & _). discriminate Hr.
    + intros dom rec Hin. apply list_elem_of_singleton in Hin. discriminate Hin.
Qed.

(** *** [extractRecordName] *)

Section Strings.
Implicit Types (s p r : string).

Lemma substring_0_append p r : String.substring 0 (String.length p) (p +:+ r) = p.
Proof.
  induction p as [|c p IH]; simpl.
  - destruct r; reflexivity.
  - rewrite IH. reflexivity.
Qed.

Lemma prefix_append s r : String.prefix s (s +:+ r) = true.
Proof. apply String.prefix_correct, substring_0_append. Qed.

Lemma prefix_refl s : String.prefix s s = true.
Proof.
  apply String.prefix_correct. induction s as [|c s IH]; [reflexivity|].
  simpl. rewrite IH. reflexivity.
Qed.

Lemma prefix_head_ne a s b r : a <> b -> String.prefix (String a s) (String b r) = false.
Proof.
  intros Hne. destruct (String.prefix (String a s) (String b r)) eqn:H; [|reflexivity].
  apply String.prefix_correct in H. simpl in H. injection H as Hb _. congruence.
Qed.

Lemma prefix_decompose s : forall r, String.prefix s r = true -> exists t, r = s +:+ t.
Proof.
  induction s as [|a s IH]; intros r H.
  - exists r. reflexivity.
  - apply String.prefix_correct in H. destruct r as [|b r]; [discriminate H|].
    simpl in H. injection H as -> H. apply String.prefix_correct in H.
    destruct (IH r H) as [t ->]. exists t. reflexivity.
Qed.

Lemma substring_prefix s : forall n, String.prefix (String.substring 0 n s) s = true.
Proof.
  induction s as [|c s IH]; intros n; apply String.prefix_correct.
  - destruct n; reflexivity.
  - destruct n as [|n]; [reflexivity|]. simpl.
    f_equal. apply String.prefix_correct, IH.
Qed.

Lemma index_decompose s1 s2 : forall i,
  String.index 0 s1 s2 = Some i ->
  exists t, s2 = String.substring 0 i s2 +:+ s1 +:+ t /\
            String.length (String.substring 0 i s2) = i.
Proof.
  induction s2 as [|b s2 IH]; intros i H; cbn [String.index] in H.
  - destruct s1; [|discriminate H]. injection H as <-. exists EmptyString. split; reflexivity.
  - destruct (String.prefix s1 (String b s2)) eqn:Hp.
    + injection H as <-. destruct (prefix_decompose _ _ Hp) as [t Ht].
      exists t. split; [exact Ht | reflexivity].
    + destruct (String.index 0 s1 s2) as [n|] eqn:Hn; [|discriminate H].
      injection H as <-. destruct (IH n eq_refl) as (t & Ht & Hl).
      exists t. split.
      * change (String b s2 = String b (String.substring 0 n s2 +:+ s1 +:+ t)).
        f_equal. exact Ht.
      * change (S (String.length (String.substring 0 n s2)) = S n). f_equal. exact Hl.
Qed.

Lemma index_after_label p domain rest :
  ~ In "."%char (list_ascii_of_string p) ->
  String.index 0 ("." +:+ domain) (p +:+ "." +:+ domain +:+ rest)
    = Some (String.length p).
Proof.
  induction p as [|c p IH]; intros Hdot.
  - change (EmptyString +:+ "." +:+ domain +:+ rest) with (String "." (domain +:+ rest)).
    cbn [String.index].
    change (String "." (domain +:+ rest)) with (("." +:+ domain) +:+ rest).
    rewrite prefix_append. reflexivity.
  - change (String c p +:+ "." +:+ domain +:+ rest)
      with (String c (p +:+ "." +:+ domain +:+ rest)).
    cbn [String.index].
    change ("." +:+ domain) with (String "." domain).
    rewrite prefix_head_ne by (intros Heq; apply Hdot; left; symmetry; exact Heq).
    change (String "." domain) with ("." +:+ domain).
    rewrite IH by (intros H; apply Hdot; right; exact H).
    reflexivity.
Qed.

End Strings.

(** X10. The record name is a prefix of the challenge name without its final
    dot: the whole of it when [.<domain>] does not occur in it, and otherwise
    the part before the first occurrence of [.<domain>]. *)
Theorem extractRecordName_cuts_at_domain {Backend} (D : Deps Backend) (d : DNSProvider)
    (fqdn domain : string) :
  let name := UnFqdn D fqdn in
  let record := extractRecordName D d fqdn domain in
  String.prefix record name = true /\
  (strings_Index name ("." +:+ domain) = -1 -> record = name) /\
  (strings_Index name ("." +:+ domain) <> -1 ->
   String.length record = Z.to_nat (strings_Index name ("." +:+ domain)) /\
   exists rest, name = record +:+ "." +:+ domain +:+ rest).
Proof.
  intros name record. subst record. unfold extractRecordName, strings_Index. fold name.
  destruct (String.index 0 ("." +:+ domain) name) as [i|] eqn:Hi.
  - replace (Z.of_nat i =? -1) with false by (symmetry; apply Z.eqb_neq; lia).
    cbn [negb]. rewrite Nat2Z.id.
    destruct (index_decompose _ _ _ Hi) as (t & Ht & Hl).
    split; [apply substring_prefix|]. split; [lia|].
    intros _. split; [exact Hl|]. exists t. exact Ht.
  - cbn [Z.eqb negb]. split; [|split; [reflexivity | intros H; contradiction]].
    apply prefix_refl.
Qed.

(** X11. For a challenge name that is a label without dots, then [.], the
    domain and anything after it (as [_acme-challenge.<domain>] is), the
    record name is the label. *)
Theorem extractRecordName_label {Backend} (D : Deps Backend) (d : DNSProvider)
    (fqdn domain label rest : string) :
  UnFqdn D fqdn = label +:+ "." +:+ domain +:+ rest ->
  ~ In "."%char (list_ascii_of_string label) ->
  extractRecordName D d fqdn domain = label.
Proof.
  intros Hname Hdot. unfold extractRecordName, strings_Index. rewrite Hname.
  rewrite (index_after_label label domain rest Hdot).
  replace (Z.of_nat (String.length label) =? -1) with false
    by (symmetry; apply Z.eqb_neq; lia).
  cbn [negb]. rewrite Nat2Z.id. apply substring_0_append.
Qed.

Lemma extractRecordName_label_witness :
  extractRecordName (zone.deps (fun s => s)) (zone.provider zone.defaultConfig)
                    "_acme-challenge.example.com." "example.com" = "_acme-challenge".
Proof.
  apply (extractRecordName_label (zone.deps (fun s => s)) (zone.provider zone.defaultConfig)
           "_acme-challenge.example.com." "example.com" "_acme-challenge" EmptyString).
  - reflexivity.
  - simpl. intros H. repeat (destruct H as [H|H]; [discriminate H|]). exact H.
Defined.

End provider_more.

(** ** More on the renewal command *)

Module workflow_more.
Import cmd runs workflow.

Section Before.
Context {PrivateKey Resource : Type}.

Lemma before_run (ctx : Context) (n : nat) :
  before ctx n
    = mkRun (PrivateKey := PrivateKey) (Resource := Resource)
        (match flag_domains ctx, flag_csr ctx with
         | _ :: _, String _ _ =>
             Exit (mkLine "Please specify either --domains/-d or --csr/-c, but not both" [])
         | [], EmptyString =>
             Exit (mkLine "Please specify --domains/-d (or --csr/-c if you already have a CSR)" [])
         | _, _ => Return None
         end) [] n.
Proof.
  unfold before.
  assert (HS : forall k, (0 <? Z.of_nat (S k)) = true)
    by (intros k; apply Z.ltb_lt; lia).
  destruct (flag_domains ctx) as [|dom doms]; destruct (flag_csr ctx) as [|c csr];
    cbn [length String.length]; rewrite ?HS; reflexivity.
Qed.

(** X12. The [Before] check lets the command run exactly when one of the
    domain list and the CSR file name is given and the other is not; given
    both, or neither, it ends the process with the message for that case.
    It reads no clock and calls nothing. *)
Theorem before_either_or (ctx : Context) (n : nat) :
  let r : Run PrivateKey Resource (option error) := before ctx n in
  trace r = [] /\ reads r = n /\
  (outcome r = Return None <->
   (flag_domains ctx <> [] /\ flag_csr ctx = EmptyString) \/
   (flag_domains ctx = [] /\ flag_csr ctx <> EmptyString)) /\
  (flag_domains ctx <> [] -> flag_csr ctx <> EmptyString ->
   outcome r = Exit (mkLine "Please specify either --domains/-d or --csr/-c, but not both" [])) /\
  (flag_domains ctx = [] -> flag_csr ctx = EmptyString ->
   outcome r = Exit (mkLine "Please specify --domains/-d (or --csr/-c if you already have a CSR)" [])).
Proof.
  intros r. subst r. rewrite before_run. cbn [trace reads outcome].
  destruct (flag_domains ctx) as [|dom doms]; destruct (flag_csr ctx) as [|c csr].
  - repeat split; try discriminate.
    + intros [[H _]|[_ H]]; congruence.
    + intros H; contradiction.
  - repeat split; try discriminate.
    + intros _. right. split; [reflexivity|discriminate].
    + intros H; contradiction.
  - repeat split; try discriminate.
    + intros _. left. split; [discriminate|reflexivity].
    + intros _ H; contradiction.
  - repeat split; try discriminate.
    intros [[_ H]|[H _]]; discriminate.
Qed.

End Before.

Section Runs.
Context {PrivateKey Resource : Type}.
Variable E : Env PrivateKey Resource.

(** X13. An account that is not registered ends the run at once: the
    process exits with the message naming the account's email; nothing is
    logged, requested, stored or launched, and no clock is read. *)
Theorem renew_unregistered (ctx : Context) (n : nat) (account : Account) :
  setup E ctx = Return account ->
  setupChallenges E ctx = Return tt ->
  Registration account = None ->
  renew E ctx n
    = mkRun (Exit (mkLine "Account %s is not registered. Use 'run' to register a new account.\n"
                          [ArgStr (Email account)])) [] n.
Proof.
  intros Hs Hc Hr. unfold renew, mbind, M_bind, bind, lift.
  cbn [outcome trace reads]. rewrite Hs. cbn [outcome trace reads]. rewrite Hc.
  cbn [outcome trace reads]. rewrite Hr. reflexivity.
Qed.

(** X14. The calls of a run of [renew] come in the order of the workflow:
    the ACME client is asked at most once; the certificate it issued, and
    only that, is then stored; the hook comes after the storing.  Nothing is
    stored after a refused issuance, and no skip or failure calls
    anything. *)
Theorem renew_well_sequenced (ctx : Context) (n : nat) :
  well_sequenced (flag_renew_hook ctx) (effects (trace (renew E ctx n))).
Proof.
  apply (wp_run (renew E ctx) n
           (fun _ tr _ => well_sequenced (flag_renew_hook ctx) (effects tr))).
  unfold renew, renewForCSR, renewForDomains. wp_exec; try discriminate.
  all: cbn [app effects List.filter well_sequenced issue_result]; eauto.
Qed.

Ltac members H :=
  cbn [app] in H;
  repeat (apply elem_of_cons in H as [H|H]; [try discriminate H|]);
  try (inversion H; fail).

(** X15. When [renew] asks the ACME client for a certificate by domains, the
    flag [--csr] is not set and the request is made of the stored certificate
    of the first requested domain: its domains, in their order, followed by
    the requested domains that are new ([merge]); the bundle flag negated
    from [--no-bundle]; the must-staple flag; and the stored private key,
    parsed, exactly when [--reuse-key] is given. *)
Theorem obtain_request (ctx : Context) (n : nat)
    (request : ObtainRequest PrivateKey) (r : result Resource) :
  EvObtain request r ∈ trace (renew E ctx n) ->
  flag_csr_set ctx = false /\
  exists domain rest cert certs,
    flag_domains ctx = domain :: rest /\
    ReadCertificate E domain ".crt" = Ok (cert :: certs) /\
    Domains request = merge (ExtractDomains E cert) (domain :: rest) /\
    ExtractDomains E cert `prefix_of` Domains request /\
    Bundle request = negb (flag_no_bundle ctx) /\
    MustStaple request = flag_must_staple ctx /\
    (flag_reuse_key ctx = false -> PrivateKey_ request = None) /\
    (flag_reuse_key ctx = true ->
     exists keyBytes key,
       ReadFile E domain ".key" = Ok keyBytes /\
       ParsePEMPrivateKey E keyBytes = Ok key /\
       PrivateKey_ request = Some key) /\
    r = Obtain E request.
Proof.
  revert request r.
  apply (wp_run (renew E ctx) n
           (fun _ tr _ => forall request r, EvObtain request r ∈ tr -> _)).
  unfold renew, renewForCSR, renewForDomains. wp_exec; try discriminate.
  all: intros request r Hin; members Hin.
  all: injection Hin as -> ->; subst.
  all: split; [reflexivity|]; eexists _, _, _, _;
    split; [reflexivity|]; split; [eassumption|]; split; [reflexivity|];
    split; [eexists; exact (reconciler.merge_added _ (_ :: _))|];
    split; [reflexivity|]; split; [reflexivity|];
    split; [first [intros Hd; discriminate Hd | intros _; reflexivity]|];
    split; [first [intros Hd; discriminate Hd
                  | intros _; eexists _, _; repeat split; eassumption]|];
    symmetry; assumption.
Qed.

(** X16. When [renew] asks the ACME client for a certificate by CSR, the
    flag [--csr] is set, the CSR is the one read from the file the flag
    names, the bundle flag is negated from [--no-bundle], and the stored
    certificate of the CSR's common name was read; the domain list, the key
    reuse and the must-staple flag are not part of the call. *)
Theorem obtainForCSR_request (ctx : Context) (n : nat)
    (csr : CertificateRequest) (bundle : bool) (r : result Resource) :
  EvObtainForCSR csr bundle r ∈ trace (renew E ctx n) ->
  flag_csr_set ctx = true /\
  readCSRFile E (flag_csr ctx) = Ok csr /\
  bundle = negb (flag_no_bundle ctx) /\
  r = ObtainForCSR E csr bundle /\
  exists cert certs,
    ReadCertificate E (csr_Subject_CommonName csr) ".crt" = Ok (cert :: certs) /\
    IsCA cert = false /\
    (0 <= flag_days ctx -> daysLeft E cert n <= flag_days ctx).
Proof.
  revert csr bundle r.
  apply (wp_run (renew E ctx) n
           (fun _ tr _ => forall csr bundle r, EvObtainForCSR csr bundle r ∈ tr -> _)).
  unfold renew, renewForCSR, renewForDomains. wp_exec; try discriminate.
  all: intros csr bundle r Hin; members Hin.
  all: injection Hin as -> -> ->; subst.
  all: split; [reflexivity|]; split; [reflexivity|]; split; [reflexivity|];
    split; [symmetry; assumption|]; eexists _, _; split; [eassumption|];
    split; [assumption|]; unfold daysLeft; intros Hdays.
  all: repeat match goal with
              | H : (_ >? _) = false |- _ => rewrite Z.gtb_ltb, Z.ltb_ge in H
              | H : (_ >=? _) = false |- _ => rewrite Z.geb_leb, Z.leb_gt in H
              end; lia.
Qed.

(** X17. With [--reuse-key], when the parser returns an error for the
    stored key of the first requested domain, [renew] by domains asks the
    ACME client for nothing and stores nothing; if it returns, it returns nil
    after a skip, or else that error as it is.  It does return that error
    when the account is registered and the stored certificate is no CA and
    is due. *)
Theorem reuse_key_parse_error (ctx : Context) (n : nat) (domain : string)
    (keyBytes : list Byte.byte) (e : error) :
  flag_csr_set ctx = false -> flag_reuse_key ctx = true ->
  head (flag_domains ctx) = Some domain ->
  ReadFile E domain ".key" = Ok keyBytes ->
  ParsePEMPrivateKey E keyBytes = Err e ->
  effects (trace (renew E ctx n)) = [] /\
  (forall x, outcome (renew E ctx n) = Return x ->
     (x = None /\ skipped (trace (renew E ctx n)) = true) \/
     (x = Some e /\ skipped (trace (renew E ctx n)) = false)) /\
  (forall account registration cert certs,
     setup E ctx = Return account -> setupChallenges E ctx = Return tt ->
     Registration account = Some registration ->
     ReadCertificate E domain ".crt" = Ok (cert :: certs) ->
     IsCA cert = false ->
     (flag_days ctx < 0 \/ daysLeft E cert n <= flag_days ctx) ->
     outcome (renew E ctx n) = Return (Some e)).
Proof.
  intros Hcsr Hreuse Hdom Hread Hparse.
  destruct (flag_domains ctx) as [|domain' rest] eqn:Hd; [discriminate Hdom|].
  injection Hdom as ->.
  apply (wp_run (renew E ctx) n
           (fun o tr _ =>
              effects tr = [] /\
              (forall x, o = Return x ->
                 (x = None /\ skipped tr = true) \/ (x = Some e /\ skipped tr = false)) /\
              (forall account registration cert certs,
                 setup E ctx = Return account -> setupChallenges E ctx = Return tt ->
                 Registration account = Some registration ->
                 ReadCertificate E domain ".crt" = Ok (cert :: certs) ->
                 IsCA cert = false ->
                 (flag_days ctx < 0 \/ daysLeft E cert n <= flag_days ctx) ->
                 o = Return (Some e)))).
  unfold renew, renewForCSR, renewForDomains. rewrite Hcsr, Hreuse, Hd.
  wp_exec; try congruence.
  all: cbn [app]; split; [reflexivity|]; split.
  all: try (intros x Hx; try discriminate Hx; injection Hx as <-;
            first [ left; split; reflexivity
                  | right; split; [congruence | reflexivity] ]).
  all: intros account registration cert certs Hs Hc Hr Hcert Hca Hdue;
    unfold daysLeft in Hdue;
    repeat match goal with
           | H : (_ >? _) = true |- _ => rewrite Z.gtb_ltb, Z.ltb_lt in H
           | H : (_ >? _) = false |- _ => rewrite Z.gtb_ltb, Z.ltb_ge in H
           | H : (_ >=? _) = true |- _ => rewrite Z.geb_leb, Z.leb_le in H
           | H : (_ >=? _) = false |- _ => rewrite Z.geb_leb, Z.leb_gt in H
           end;
    repeat match goal with
           | H : _ :: _ = _ :: _ |- _ => injection H as ? ?
           end;
    subst;
    first [ congruence
          | exfalso;
            match goal with
            | H : ReadCertificate E ?d ".crt" = Ok (?c :: _) |- _ =>
                assert (cert = c) by congruence; subst; first [lia | congruence]
            end ].
Qed.

(** X18. The hook that a run of [renew] launches is the one of
    [--renew-hook], and its metadata are those of the account that [setup]
    returned and of one domain: the common name of the CSR when [--csr] is
    set, the first of the requested domains otherwise, whatever the other
    requested domains and the domains of the stored certificate are. *)
Theorem hook_names_domain (ctx : Context) (n : nat) (hook : string)
    (meta : gmap string string) :
  EvLaunchHook hook meta ∈ trace (renew E ctx n) ->
  hook = flag_renew_hook ctx /\
  exists account domain,
    setup E ctx = Return account /\
    meta = hookMetadata E (Email account) domain /\
    if flag_csr_set ctx
    then exists csr, readCSRFile E (flag_csr ctx) = Ok csr /\
                     domain = csr_Subject_CommonName csr
    else head (flag_domains ctx) = Some domain.
Proof.
  revert hook meta.
  apply (wp_run (renew E ctx) n
           (fun _ tr _ => forall hook meta, EvLaunchHook hook meta ∈ tr -> _)).
  unfold renew, renewForCSR, renewForDomains. wp_exec; try discriminate.
  all: intros hook meta Hin; members Hin.
  all: injection Hin as -> ->.
  all: split; [reflexivity|]; eexists _, _; split; [reflexivity|];
    split; [reflexivity|]; first [reflexivity | eexists; split; reflexivity].
Qed.

(** The action alone never panics when it has a domain to index and the
    storage never answers with an empty list of certificates. *)
Lemma renew_no_panic (ctx : Context) (n : nat) :
  (flag_csr_set ctx = false -> flag_domains ctx <> []) ->
  (forall domain ext, ReadCertificate E domain ext <> Ok []) ->
  (forall reason, setup E ctx <> Panic reason) ->
  (forall reason, setupChallenges E ctx <> Panic reason) ->
  (forall res reason, SaveResource E res <> Panic reason) ->
  forall reason, outcome (renew E ctx n) <> Panic reason.
Proof.
  intros Hdom Hcert Hsetup Hchal Hsave.
  apply (wp_run (renew E ctx) n (fun o _ _ => forall reason, o <> Panic reason)).
  unfold renew, renewForCSR, renewForDomains. wp_exec; try discriminate.
  all: intros r0 _; exfalso;
    first [ solve [apply Hdom; reflexivity]
          | solve [eapply Hcert; eassumption]
          | solve [eapply Hsetup; reflexivity]
          | solve [eapply Hchal; reflexivity]
          | solve [eapply Hsave; eassumption] ].
Qed.

(** X19. The command as the CLI runs it never panics, provided that the CSR
    flag counts as set exactly when its value is not empty, that the storage
    never answers with an empty list of certificates, and that the
    collaborators themselves do not panic: after the [Before] check the
    domain list that is indexed is not empty. *)
Theorem run_renew_no_panic (ctx : Context) (n : nat) :
  (flag_csr_set ctx = true <-> flag_csr ctx <> EmptyString) ->
  (forall domain ext, ReadCertificate E domain ext <> Ok []) ->
  (forall reason, setup E ctx <> Panic reason) ->
  (forall reason, setupChallenges E ctx <> Panic reason) ->
  (forall res reason, SaveResource E res <> Panic reason) ->
  forall reason, outcome (run_renew E ctx n) <> Panic reason.
Proof.
  intros Hset Hcert Hsetup Hchal Hsave reason.
  unfold run_renew, mbind, M_bind, bind. rewrite before_run. cbn [outcome trace reads].
  destruct (flag_domains ctx) as [|dom doms] eqn:Hd;
    destruct (flag_csr ctx) as [|c csr] eqn:Hc; cbn [outcome]; try discriminate.
  - apply renew_no_panic; auto. intros Hf. exfalso.
    destruct (flag_csr_set ctx); [discriminate Hf|].
    assert (false = true) by (apply Hset; discriminate). discriminate.
  - apply renew_no_panic; auto. intros _. rewrite Hd. discriminate.
Qed.

End Runs.

(** The witnesses. *)

Lemma renew_unregistered_witness :
  renew (env_of unregistered (Ok [scenario.expiring]) (Ok tt) (Ok "issued") (Return tt))
        scenario.ctx 0%nat
    = mkRun (Exit (mkLine "Account %s is not registered. Use 'run' to register a new account.\n"
                          [ArgStr "admin@example.com"])) [] 0%nat.
Proof.
  apply (renew_unregistered
           (env_of unregistered (Ok [scenario.expiring]) (Ok tt) (Ok "issued") (Return tt))
           scenario.ctx 0%nat unregistered); reflexivity.
Defined.

Lemma obtain_request_witness :
  let E := env_of registered (Ok [scenario.expiring]) (Ok tt) (Ok "issued") (Return tt) in
  let request := {| Domains := ["example.com"]; Bundle := true;
                    PrivateKey_ := Some tt; MustStaple := false |} in
  EvObtain request (Ok "issued") ∈ trace (renew E ctx_reuse_key 0%nat) /\
  Domains request = merge (ExtractDomains E scenario.expiring) ["example.com"] /\
  PrivateKey_ request = Some tt.
Proof.
  intros E request.
  assert (Hin : EvObtain request (Ok "issued") ∈ trace (renew E ctx_reuse_key 0%nat)).
  { vm_compute. apply list_elem_of_further, list_elem_of_here. }
  split; [exact Hin|].
  destruct (obtain_request E ctx_reuse_key 0%nat request (Ok "issued") Hin)
    as (_ & domain & rest & cert & certs & Hd & Hc & Hdom & _ & _ & _ & _ & Hkey & _).
  split; [reflexivity|].
  destruct (Hkey eq_refl) as (keyBytes & key & _ & _ & Hk). destruct key. exact Hk.
Defined.

Lemma obtainForCSR_request_witness :
  let E := env_of registered (Ok [scenario.expiring]) (Ok tt) (Ok "issued") (Return tt) in
  let csr := {| csr_Subject_CommonName := "example.com"; csr_DNSNames := [] |} in
  EvObtainForCSR csr true (Ok "issued") ∈ trace (renew E ctx_csr 0%nat) /\
  flag_csr_set ctx_csr = true /\
  readCSRFile E (flag_csr ctx_csr) = Ok csr.
Proof.
  intros E csr.
  assert (Hin : EvObtainForCSR csr true (Ok "issued") ∈ trace (renew E ctx_csr 0%nat)).
  { vm_compute. apply list_elem_of_further, list_elem_of_here. }
  split; [exact Hin|].
  destruct (obtainForCSR_request E ctx_csr 0%nat csr true (Ok "issued") Hin)
    as (Hset & Hread & _).
  split; [exact Hset | exact Hread].
Defined.

Lemma reuse_key_parse_error_witness :
  effects (trace (renew env_unparsable_key ctx_reuse_key 0%nat)) = [] /\
  outcome (renew env_unparsable_key ctx_reuse_key 0%nat)
    = Return (Some (external_error "failed to parse private key")) /\
  ParsePEMPrivateKey env_unparsable_key [Byte.x2d] = Ok tt.
Proof.
  destruct (reuse_key_parse_error env_unparsable_key ctx_reuse_key 0%nat "example.com" []
              (external_error "failed to parse private key")
              eq_refl eq_refl eq_refl eq_refl eq_refl) as (Hfx & _ & Hret).
  split; [exact Hfx|]. split; [|reflexivity].
  apply (Hret registered "registered" scenario.expiring []); try reflexivity.
  right. vm_compute. discriminate.
Defined.

Lemma hook_names_domain_witness :
  let E := env_of registered (Ok [scenario.expiring]) (Ok tt) (Ok "issued") (Return tt) in
  let meta := hookMetadata E "admin@example.com" "example.com" in
  EvLaunchHook "./deploy.sh" meta ∈ trace (renew E scenario.ctx 0%nat) /\
  "./deploy.sh" = flag_renew_hook scenario.ctx.
Proof.
  intros E meta.
  assert (Hin : EvLaunchHook "./deploy.sh" meta ∈ trace (renew E scenario.ctx 0%nat)).
  { change (trace (renew E scenario.ctx 0%nat))
      with ([EvLog (mkLine "[%s] acme: Trying renewal with %d hours remaining"
                           [ArgStr "example.com"; ArgInt 240]);
             EvObtain {| Domains := ["example.com"]; Bundle := true;
                         PrivateKey_ := None; MustStaple := false |} (Ok "issued");
             EvSaveResource "issued"; EvLaunchHook "./deploy.sh" meta]
            : list (Event unit string)).
    do 3 apply list_elem_of_further. apply list_elem_of_here. }
  split; [exact Hin|].
  exact (proj1 (hook_names_domain E scenario.ctx 0%nat "./deploy.sh" meta Hin)).
Defined.

Lemma run_renew_no_panic_witness :
  outcome (run_renew (env_of registered (Ok [scenario.expiring]) (Ok tt) (Ok "issued")
                             (Return tt)) scenario.ctx 0%nat)
    <> Panic "index out of range [0] with length 0".
Proof.
  apply (run_renew_no_panic
           (env_of registered (Ok [scenario.expiring]) (Ok tt) (Ok "issued") (Return tt))
           scenario.ctx 0%nat).
  - split; [discriminate | intros H; exfalso; apply H; reflexivity].
  - discriminate.
  - discriminate.
  - discriminate.
  - discriminate.
Defined.

End workflow_more.

(** ** Exact cases of the [float64] arithmetic *)

Module float64_exact.
Import float64 float64_int.

Lemma fexp_mid e : -1021 <= e -> fexp prec emax e = e - 53.
Proof. unfold fexp, emin, prec, emax. lia. Qed.

(** A mantissa of 53 digits is not shifted. *)
Lemma shr_fexp_exact m e :
  Zdigits2 (Z.pos m) = 53 -> -1074 <= e ->
  shr_fexp prec emax (Z.pos m) e loc_Exact
    = ({| shr_m := Z.pos m; shr_r := false; shr_s := false |}, e).
Proof.
  intros Hd He. unfold shr_fexp. rewrite Hd, fexp_mid by lia.
  replace (53 + e - 53 - e) with 0 by lia. reflexivity.
Qed.

(** Rounding an exact mantissa of 53 digits changes nothing. *)
Lemma round_exact sx m e :
  Zdigits2 (Z.pos m) = 53 -> -1074 <= e <= 971 ->
  binary_round_aux prec emax sx (Z.pos m) e loc_Exact = S754_finite sx m e.
Proof.
  intros Hd He. unfold binary_round_aux. rewrite (shr_fexp_exact m e Hd) by lia.
  cbn [shr_m loc_of_shr_record round_nearest_even].
  rewrite (shr_fexp_exact m e Hd) by lia. cbn [shr_m].
  replace (e <=? emax - prec) with true; [reflexivity|].
  symmetry. apply Z.leb_le. unfold emax, prec. lia.
Qed.

(** Rounding an exact, even mantissa of 54 digits halves it. *)
Lemma round_exact_even sx m e :
  Zdigits2 (Z.pos m~0) = 54 -> -1075 <= e <= 970 ->
  binary_round_aux prec emax sx (Z.pos m~0) e loc_Exact = S754_finite sx m (e + 1).
Proof.
  intros Hd He.
  assert (Hd' : Zdigits2 (Z.pos m) = 53).
  { unfold Zdigits2 in *. cbn [digits2_pos] in Hd. lia. }
  assert (Hs : shr_fexp prec emax (Z.pos m~0) e loc_Exact
               = ({| shr_m := Z.pos m; shr_r := false; shr_s := false |}, e + 1)).
  { unfold shr_fexp. rewrite Hd, fexp_mid by lia.
    replace (54 + e - 53 - e) with 1 by lia. reflexivity. }
  unfold binary_round_aux. rewrite Hs.
  cbn [shr_m loc_of_shr_record round_nearest_even].
  rewrite (shr_fexp_exact m (e + 1) Hd') by lia. cbn [shr_m].
  replace (e + 1 <=? emax - prec) with true; [reflexivity|].
  symmetry. apply Z.leb_le. unfold emax, prec. lia.
Qed.

Lemma Zdigits2_pos_range p : 2 ^ (Zdigits2 (Z.pos p) - 1) <= Z.pos p < 2 ^ Zdigits2 (Z.pos p).
Proof.
  rewrite float64_facts.Zdigits2_log2 by lia.
  replace (Z.log2 (Z.pos p) + 1 - 1) with (Z.log2 (Z.pos p)) by lia.
  replace (Z.log2 (Z.pos p) + 1) with (Z.succ (Z.log2 (Z.pos p))) by lia.
  apply Z.log2_spec. lia.
Qed.

Lemma Zdigits2_of_range m d : 0 < d -> 2 ^ (d - 1) <= m < 2 ^ d -> Zdigits2 m = d.
Proof.
  intros Hd Hm.
  assert (0 < m) by (pose proof (Z.pow_pos_nonneg 2 (d - 1)); lia).
  rewrite float64_facts.Zdigits2_log2 by lia.
  rewrite (Z.log2_unique m (d - 1)); [lia|lia|].
  replace (Z.succ (d - 1)) with d by lia. exact Hm.
Qed.

(** An integer below [2^53] converts exactly. *)
Lemma binary_round_is_int sx p :
  Z.pos p < 2 ^ 53 ->
  exists m e, binary_round prec emax sx p 0 = S754_finite sx m e /\
              Zdigits2 (Z.pos m) = 53 /\ e <= 0 /\ Z.pos m = Z.pos p * 2 ^ (- e).
Proof.
  intros Hp.
  assert (Hd : 0 < Zdigits2 (Z.pos p) <= 53).
  { split; [unfold Zdigits2; lia|].
    apply float64_facts.Zdigits2_lt_pow; [lia|]. rewrite Z.abs_eq by lia. exact Hp. }
  unfold binary_round.
  change (Z.pos (digits2_pos p)) with (Zdigits2 (Z.pos p)).
  rewrite Z.add_0_r, fexp_mid by lia.
  unfold shl_align.
  destruct (Zdigits2 (Z.pos p) - 53 - 0) as [|q|q] eqn:Hq; [|lia|].
  - exists p, 0. rewrite round_exact by lia.
    repeat split; [lia|lia|]. rewrite Z.pow_0_r. lia.
  - assert (Hm : Z.pos (Pos.iter xO p q) = Z.pos p * 2 ^ Z.pos q).
    { rewrite float64_facts.iter_xO_shiftl, Z.shiftl_mul_pow2 by lia. reflexivity. }
    assert (Hdm : Zdigits2 (Z.pos (Pos.iter xO p q)) = 53).
    { rewrite float64_facts.iter_xO_shiftl, float64_facts.Zdigits2_shiftl by lia. lia. }
    exists (Pos.iter xO p q), (Zdigits2 (Z.pos p) - 53).
    rewrite round_exact by lia.
    repeat split; [exact Hdm|lia|]. rewrite Hm. f_equal. f_equal. lia.
Qed.

Lemma of_int_is_int n : Z.abs n < 2 ^ 53 -> is_int n (of_int n).
Proof.
  intros Hn. unfold of_int, binary_normalize. destruct n as [|p|p].
  - reflexivity.
  - destruct (binary_round_is_int false p) as (m & e & -> & Hd & He & Hm); [lia|].
    cbn [is_int]. repeat split; [exact Hd|exact He|]. rewrite Hm. reflexivity.
  - destruct (binary_round_is_int true p) as (m & e & -> & Hd & He & Hm); [lia|].
    cbn [is_int]. repeat split; [exact Hd|exact He|]. rewrite Hm. reflexivity.
Qed.

(** The conversion back discards nothing. *)
Lemma to_int_is_int n x : is_int n x -> to_int x = n.
Proof.
  destruct x as [s| | |s m e]; cbn [is_int to_int]; try contradiction.
  - intros ->. reflexivity.
  - intros (Hs & _ & He & Hm).
    assert (Ha : Z.shiftl (Z.pos m) e = Z.abs n).
    { replace e with (- - e) at 1 by lia. rewrite Z.shiftl_opp_r, Z.shiftr_div_pow2 by lia.
      rewrite Hm. apply Z.div_mul. apply Z.pow_nonzero; lia. }
    cbv zeta. rewrite Ha, Hs. destruct (Z.ltb_spec n 0); lia.
Qed.

(** Adding the positive zero is exact. *)
Lemma add_zero_is_int n x : is_int n x -> is_int n (add x (S754_zero false)).
Proof.
  destruct x as [[|]| | |s m e]; cbn [is_int]; try contradiction; intros H; exact H.
Qed.

(** The quotient of two integers, when it is an integer, is exact. *)
Lemma div_is_int c k x y :
  0 < c -> is_int (c * k) x -> is_int c y -> is_int k (div x y).
Proof.
  intros Hc Hx Hy.
  destruct y as [sy| | |sy m2 e2]; cbn [is_int] in Hy; try contradiction; [lia|].
  destruct Hy as (Hsy & Hd2 & He2 & Hm2).
  assert (sy = false) as -> by (rewrite Hsy; apply Z.ltb_ge; lia).
  rewrite (Z.abs_eq c) in Hm2 by lia.
  destruct x as [sx| | |sx m1 e1]; cbn [is_int] in Hx; try contradiction.
  { cbn [div SFdiv is_int]. nia. }
  destruct Hx as (Hsx & Hd1 & He1 & Hm1).
  assert (Hk : k <> 0) by (intros ->; rewrite Z.mul_0_r in Hm1; cbn in Hm1; lia).
  rewrite Z.abs_mul, (Z.abs_eq c) in Hm1 by lia.
  pose proof (Zdigits2_pos_range m1) as Hr1. rewrite Hd1 in Hr1.
  pose proof (Zdigits2_pos_range m2) as Hr2. rewrite Hd2 in Hr2.
  change (53 - 1) with 52 in Hr1, Hr2.
  (* exponents of canonical integers *)
  assert (He2' : -52 <= e2).
  { destruct (Z_lt_le_dec e2 (-52)) as [Hlt|]; [|lia]. exfalso.
    assert (2 ^ 53 <= 2 ^ (- e2)) by (apply Z.pow_le_mono_r; lia).
    assert (2 ^ (- e2) <= c * 2 ^ (- e2)).
    { rewrite <- (Z.mul_1_l (2 ^ (- e2))) at 1. apply Z.mul_le_mono_nonneg_r; lia. }
    lia. }
  assert (He1' : -52 <= e1).
  { destruct (Z_lt_le_dec e1 (-52)) as [Hlt|]; [|lia]. exfalso.
    assert (2 ^ 53 <= 2 ^ (- e1)) by (apply Z.pow_le_mono_r; lia).
    assert (2 ^ (- e1) <= c * Z.abs k * 2 ^ (- e1)).
    { rewrite <- (Z.mul_1_l (2 ^ (- e1))) at 1. apply Z.mul_le_mono_nonneg_r; [lia|nia]. }
    lia. }
  set (j := 53 - e1 + e2).
  set (q := Z.abs k * 2 ^ j).
  assert (Hj : 1 <= j) by (unfold j; lia).
  assert (Hmul : Z.pos m1 * 2 ^ 53 = q * Z.pos m2).
  { rewrite Hm1, Hm2. unfold q, j.
    replace (53 - e1 + e2) with (- e1 + 53 - - e2) by lia.
    assert (H2 : 2 ^ (- e1 + 53) = 2 ^ (- e1 + 53 - - e2) * 2 ^ (- e2)).
    { rewrite <- Z.pow_add_r by lia. f_equal. lia. }
    rewrite <- Z.mul_assoc, <- (Z.pow_add_r 2 (- e1) 53) by lia. rewrite H2. ring. }
  assert (Hq0 : 0 < q).
  { unfold q. apply Z.mul_pos_pos; [lia|]. apply Z.pow_pos_nonneg; lia. }
  assert (Hqr : 2 ^ 52 <= q < 2 ^ 54).
  { split.
    - destruct (Z_lt_le_dec q (2 ^ 52)) as [Hlt|]; [|lia]. exfalso.
      assert (q * Z.pos m2 < 2 ^ 52 * 2 ^ 53) by (apply Z.mul_lt_mono_nonneg; lia).
      assert (2 ^ 52 * 2 ^ 53 <= Z.pos m1 * 2 ^ 53) by (apply Z.mul_le_mono_nonneg_r; lia).
      lia.
    - destruct (Z_lt_le_dec q (2 ^ 54)) as [|Hge]; [lia|]. exfalso.
      assert (2 ^ 54 * 2 ^ 52 <= q * Z.pos m2) by (apply Z.mul_le_mono_nonneg; lia).
      assert (Z.pos m1 * 2 ^ 53 < 2 ^ 53 * 2 ^ 53) by (apply Z.mul_lt_mono_pos_r; lia).
      change (2 ^ 54 * 2 ^ 52) with (2 ^ 53 * 2 ^ 53) in *. lia. }
  (* the core of the division *)
  assert (Hcore : SFdiv_core_binary prec emax (Z.pos m1) e1 (Z.pos m2) e2
                  = (q, e1 - e2 - 53, loc_Exact)).
  { unfold SFdiv_core_binary. rewrite Hd1, Hd2, fexp_mid by lia.
    replace (Z.min (53 + e1 - (53 + e2) - 53) (e1 - e2)) with (e1 - e2 - 53) by lia.
    replace (e1 - e2 - (e1 - e2 - 53)) with 53 by lia.
    cbv zeta. cbv iota. rewrite Z.shiftl_mul_pow2 by lia. rewrite Hmul.
    pose proof (Z.div_eucl_eq (q * Z.pos m2) (Z.pos m2) ltac:(lia)) as Heq.
    pose proof (Z.div_mul q (Z.pos m2) ltac:(lia)) as Hdiv.
    pose proof (Z.mod_mul q (Z.pos m2) ltac:(lia)) as Hmod.
    unfold Z.div, Z.modulo in Hdiv, Hmod.
    destruct (Z.div_eucl (q * Z.pos m2) (Z.pos m2)) as [q' r']. cbn [fst snd] in *. subst q' r'.
    f_equal. unfold new_location, new_location_even, new_location_odd.
    destruct (Z.even (Z.pos m2)); reflexivity. }
  cbn [div SFdiv]. rewrite Hcore. rewrite xorb_false_r.
  assert (Hsign : sx = (k <? 0)).
  { rewrite Hsx. destruct (Z.ltb_spec (c * k) 0), (Z.ltb_spec k 0); try reflexivity; nia. }
  destruct (Z_lt_le_dec q (2 ^ 53)) as [Hsmall|Hbig].
  - assert (Hdq : Zdigits2 q = 53) by (apply Zdigits2_of_range; [lia|]; change (53 - 1) with 52; lia).
    destruct q as [|pq|pq] eqn:Hqv; try lia.
    rewrite round_exact by lia. cbn [is_int].
    repeat split; [exact Hsign|exact Hdq|lia|].
    rewrite <- Hqv. unfold q, j. f_equal. f_equal. lia.
  - assert (Hdq : Zdigits2 q = 54) by (apply Zdigits2_of_range; [lia|]; change (54 - 1) with 53; lia).
    assert (Hhalf : q = 2 * (Z.abs k * 2 ^ (j - 1))).
    { unfold q. replace j with (1 + (j - 1)) at 1 by lia.
      rewrite Z.pow_add_r by lia. change (2 ^ 1) with 2. ring. }
    destruct (Z.abs k * 2 ^ (j - 1)) as [|ph|ph] eqn:Hh; try lia.
    change (2 * Z.pos ph) with (Z.pos ph~0) in Hhalf. rewrite Hhalf in *.
    rewrite round_exact_even by lia. cbn [is_int].
    repeat split; [exact Hsign| |lia|].
    + unfold Zdigits2 in *. cbn [digits2_pos] in Hdq. lia.
    + rewrite <- Hh. unfold j. f_equal. f_equal. lia.
Qed.

(** A whole number of hours is an exact [float64]. *)
Lemma Hours_whole h : Z.abs h < 2 ^ 53 -> is_int h (time.Hours (h * time.Hour)).
Proof.
  intros Hh. unfold time.Hours.
  rewrite Z.quot_mul, Z.rem_mul by discriminate.
  change (div (of_int 0) (of_int 3600000000000)) with (S754_zero false).
  apply add_zero_is_int, of_int_is_int, Hh.
Qed.

Lemma daysOf_whole k : Z.abs k < 2 ^ 48 -> cmd.daysOf (k * (24 * time.Hour)) = k.
Proof.
  intros Hk. unfold cmd.daysOf. apply to_int_is_int.
  apply (div_is_int 24); [lia| |apply of_int_is_int; vm_compute; reflexivity].
  replace (k * (24 * time.Hour)) with (24 * k * time.Hour) by ring.
  apply Hours_whole.
  assert (24 * 2 ^ 48 < 2 ^ 53) by (vm_compute; reflexivity). lia.
Qed.

End float64_exact.

(** ** More on the renewal decision *)

Module decision_more.
Import cmd.

Lemma Sub_exact (t u : time.Time) :
  time.minDuration <= t - u <= time.maxDuration -> time.Sub t u = t - u.
Proof.
  intros H. unfold time.Sub.
  destruct (Z.ltb_spec (t - u) time.minDuration); [lia|].
  destruct (Z.ltb_spec time.maxDuration (t - u)); [lia|reflexivity].
Qed.

Section Decision.
Context {PrivateKey Resource : Type}.
Variable E : Env PrivateKey Resource.

(** X20. A certificate that expires a whole number [k] of days (of 24 hours)
    after, or before, the instant [needRenewal] reads has exactly [k] days
    left: the [float64] division by 24 loses nothing there.  With a
    threshold [d >= 0] the certificate is renewed exactly when [k <= d]. *)
Theorem whole_days_exact (cert : Certificate) (domain : string) (d : Z) (n : nat) (k : Z) :
  IsCA cert = false -> 0 <= d ->
  -106751 <= k <= 106751 ->
  NotAfter cert = clock E n + k * (24 * time.Hour) ->
  daysLeft E cert n = k /\
  outcome (needRenewal E cert domain d n) = Return (k <=? d).
Proof.
  intros Hca Hd Hk Hna.
  assert (Hdays : daysLeft E cert n = k).
  { unfold daysLeft. rewrite Hna, Sub_exact.
    - replace (clock E n + k * (24 * time.Hour) - clock E n) with (k * (24 * time.Hour)) by ring.
      apply float64_exact.daysOf_whole.
      assert (106751 < 2 ^ 48) by (vm_compute; reflexivity). lia.
    - unfold time.minDuration, time.maxDuration, time.Hour, time.Second.
      change (2 ^ 63) with 9223372036854775808. lia. }
  split; [exact Hdays|].
  rewrite (decision.needRenewal_leaf E cert domain d n Hca), Hdays.
  destruct (Z.geb_spec d 0); [|lia].
  destruct (Z.gtb_spec k d), (Z.leb_spec k d); try lia; reflexivity.
Qed.

(** X21. The hours in the line that announces a renewal are those between
    the expiry of the stored certificate and a clock reading of their own,
    made after the decision: the reading after the one [needRenewal] made,
    or the first one when the threshold is negative and [needRenewal] made
    none.  Their number is below [2^25] in absolute value, and it is exact
    when the certificate expires a whole number of hours from that
    reading. *)
Theorem hours_remaining_logged (ctx : Context) (n : nat) (domain : string) (h : Z) :
  EvLog (mkLine "[%s] acme: Trying renewal with %d hours remaining" [ArgStr domain; ArgInt h])
    ∈ trace (renew E ctx n) ->
  exists cert certs,
    ReadCertificate E domain ".crt" = Ok (cert :: certs) /\
    let now := clock E (if flag_days ctx >=? 0 then S n else n) in
    h = float64.to_int (time.Hours (time.Sub (NotAfter cert) now)) /\
    Z.abs h < 2 ^ 25 /\
    forall k, Z.abs k <= 2562047 -> NotAfter cert = now + k * time.Hour -> h = k.
Proof.
  revert domain h.
  apply (workflow.wp_run (renew E ctx) n
           (fun _ tr _ => forall domain h, EvLog _ ∈ tr -> _)).
  unfold renew, renewForCSR, renewForDomains. workflow.wp_exec; try discriminate.
  all: intros domain h Hin; cbn [app] in Hin;
    repeat (apply elem_of_cons in Hin as [Hin|Hin]; [try discriminate Hin|]);
    try (inversion Hin; fail).
  all: injection Hin as -> ->.
  all: eexists _, _; split; [eassumption|]; cbv zeta; split; [reflexivity|]; split.
  all: try (apply (float64_facts.small_to_int 11 25); [lia|];
            apply float64_facts.Hours_small, float64_facts.Sub_range).
  all: intros k Hk Hna; rewrite Hna, Sub_exact.
  all: try (unfold time.minDuration, time.maxDuration, time.Hour, time.Second;
            change (2 ^ 63) with 9223372036854775808; lia).
  all: match goal with
       | |- context [?t + ?x * time.Hour - ?t] =>
           replace (t + x * time.Hour - t) with (x * time.Hour) by ring
       end.
  all: apply float64_exact.to_int_is_int, float64_exact.Hours_whole.
  all: assert (2562047 < 2 ^ 53) by (vm_compute; reflexivity); lia.
Qed.

End Decision.

Lemma whole_days_exact_witness :
  let E := scenario.env scenario.expiring (Return tt) in
  daysLeft E scenario.expiring 0%nat = 10 /\
  outcome (needRenewal E scenario.expiring "example.com" 30 0%nat) = Return true.
Proof.
  intros E.
  apply (whole_days_exact E scenario.expiring "example.com" 30 0%nat 10);
    [reflexivity|lia|lia|reflexivity].
Defined.

Lemma hours_remaining_logged_witness :
  let E := scenario.env scenario.expiring (Return tt) in
  EvLog (mkLine "[%s] acme: Trying renewal with %d hours remaining"
                [ArgStr "example.com"; ArgInt 240]) ∈ trace (renew E scenario.ctx 0%nat) /\
  exists cert certs,
    ReadCertificate E "example.com" ".crt" = Ok (cert :: certs) /\
    240 = float64.to_int (time.Hours (time.Sub (NotAfter cert) (clock E 1%nat))).
Proof.
  intros E.
  assert (Hin : EvLog (mkLine "[%s] acme: Trying renewal with %d hours remaining"
                              [ArgStr "example.com"; ArgInt 240])
                  ∈ trace (renew E scenario.ctx 0%nat)).
  { vm_compute. apply list_elem_of_here. }
  split; [exact Hin|].
  destruct (hours_remaining_logged E scenario.ctx 0%nat "example.com" 240 Hin)
    as (cert & certs & Hread & Hh & _).
  exists cert, certs. split; [exact Hread | exact Hh].
Defined.

End decision_more.
